(** * NACA 4-digit airfoil generator: a shallow embedding

    The embedded program is [naca_airfoil_generator.py]:
    [parse_naca_4digit], [naca_4digit_coordinates], [create_dxf_airfoil]
    and the input validation of [main].

    Conventions of the embedding.
    - A Python [str] is a list of Unicode code points ([N]).
    - A Python [int] is a [Z].
    - A Python/NumPy [float] is read as the real number it stands for:
      [+], [-], [*], [/], [**], [np.sqrt], [np.cos], [np.sin], [np.arctan]
      and [np.pi] are the operations of [R].  Rounding, infinities and NaN
      are outside this reading.
    - Module [F64] reads the generator a second time over IEEE binary64
      numbers, with every rounding, as far as the result does not depend on
      the C library behind NumPy; it shows where rounding breaks an equality
      of the real reading.
    - A NumPy one-dimensional array is a [list R]; a boolean mask is a
      [list bool].
    - A raised exception is the left injection of [result]. *)

From Stdlib Require Import ZArith NArith Bool String List Lia.
From Stdlib Require Import Reals Lra Psatz.
From Stdlib Require PrimFloat Uint63.
Import ListNotations.

(** ** Exceptions and the error monad *)

Inductive exception : Type :=
| ValueError (msg : string)
| IndexError (msg : string).

Definition result (A : Type) : Type := (exception + A)%type.

Definition ret {A : Type} (a : A) : result A := inr a.
Definition raise {A : Type} (e : exception) : result A := inl e.

Definition bind {A B : Type} (c : result A) (k : A -> result B) : result B :=
  match c with
  | inl e => inl e
  | inr a => k a
  end.

Declare Scope result_scope.
Delimit Scope result_scope with result.
Notation "x <- c ;; k" := (bind c (fun x => k))
  (at level 61, c at next level, right associativity) : result_scope.
Notation "' p <- c ;; k" := (bind c (fun x => let 'p := x in k))
  (at level 61, p pattern, c at next level, right associativity) : result_scope.

Definition succeeds {A : Type} (c : result A) : Prop := exists a, c = inr a.
Definition fails {A : Type} (c : result A) : Prop := exists e, c = inl e.

(** ** Python strings *)

Module PyStr.

Definition codepoint : Type := N.
Definition str : Type := list codepoint.

Local Open Scope N_scope.

Definition is_ascii (c : codepoint) : bool := c <? 128.

(** The ten characters ['0'] .. ['9']. *)
Definition is_ascii_digit (c : codepoint) : bool := (48 <=? c) && (c <=? 57).

(** The part of the Unicode character database (version 14.0.0, the one of
    CPython 3.11) that [str.isdigit] and [int] consult.

    [decimal_zeros]: the first code point of each of the 66 blocks of decimal
    digits (general category Nd, 660 characters).  Each block is ten
    consecutive code points with the values 0 to 9.  These are the
    characters [int] reads as digits. *)
Definition decimal_zeros : list codepoint :=
  [0x30; 0x660; 0x6F0; 0x7C0; 0x966; 0x9E6; 0xA66; 0xAE6; 0xB66; 0xBE6;
   0xC66; 0xCE6; 0xD66; 0xDE6; 0xE50; 0xED0; 0xF20; 0x1040; 0x1090; 0x17E0;
   0x1810; 0x1946; 0x19D0; 0x1A80; 0x1A90; 0x1B50; 0x1BB0; 0x1C40; 0x1C50;
   0xA620; 0xA8D0; 0xA900; 0xA9D0; 0xA9F0; 0xAA50; 0xABF0; 0xFF10; 0x104A0;
   0x10D30; 0x11066; 0x110F0; 0x11136; 0x111D0; 0x112F0; 0x11450; 0x114D0;
   0x11650; 0x116C0; 0x11730; 0x118E0; 0x11950; 0x11C50; 0x11D50; 0x11DA0;
   0x16A60; 0x16AC0; 0x16B50; 0x1D7CE; 0x1D7D8; 0x1D7E2; 0x1D7EC; 0x1D7F6;
   0x1E140; 0x1E2F0; 0x1E950; 0x1FBF0].

(** [other_digits]: the ranges (first, last) of the 128 characters whose
    Numeric_Type is Digit but not Decimal: superscripts, subscripts, circled
    and parenthesized digits and the like.  [str.isdigit] accepts them,
    [int] does not. *)
Definition other_digits : list (codepoint * codepoint) :=
  [(0xB2, 0xB3); (0xB9, 0xB9); (0x1369, 0x1371); (0x19DA, 0x19DA);
   (0x2070, 0x2070); (0x2074, 0x2079); (0x2080, 0x2089); (0x2460, 0x2468);
   (0x2474, 0x247C); (0x2488, 0x2490); (0x24EA, 0x24EA); (0x24F5, 0x24FD);
   (0x24FF, 0x24FF); (0x2776, 0x277E); (0x2780, 0x2788); (0x278A, 0x2792);
   (0x10A40, 0x10A43); (0x10E60, 0x10E68); (0x11052, 0x1105A);
   (0x1F100, 0x1F10A)].

(** The Unicode decimal digit value of a character, if it has one. *)
Definition decimal_value (c : codepoint) : option Z :=
  match find (fun z => (z <=? c) && (c <=? z + 9)) decimal_zeros with
  | Some z => Some (Z.of_N (c - z))
  | None => None
  end.

Definition isdigit_char (c : codepoint) : bool :=
  match decimal_value c with
  | Some _ => true
  | None => existsb (fun r => (fst r <=? c) && (c <=? snd r)) other_digits
  end.

(** [s.isdigit()]: every character is a digit and there is at least one. *)
Definition isdigit (s : str) : bool :=
  match s with
  | [] => false
  | _ => forallb isdigit_char s
  end.

(** [len(s)] *)
Definition len (s : str) : Z := Z.of_nat (length s).

(** [s[i]] for [i >= 0] *)
Definition getitem (s : str) (i : nat) : result str :=
  match nth_error s i with
  | Some c => ret [c]
  | None => raise (IndexError "string index out of range")
  end.

(** [s[i:]] for [i >= 0] *)
Definition slice_from (s : str) (i : nat) : str := skipn i s.

Fixpoint int_digits (acc : Z) (s : str) : option Z :=
  match s with
  | [] => Some acc
  | c :: s' =>
      match decimal_value c with
      | Some d => int_digits (10 * acc + d)%Z s'
      | None => None
      end
  end.

(** [int(s)] on the strings that reach it in this program: they have
    passed [isdigit], so they hold no sign, blank or underscore. *)
Definition int (s : str) : result Z :=
  match s with
  | [] => raise (ValueError "invalid literal for int() with base 10")
  | _ =>
      match int_digits 0 s with
      | Some v => ret v
      | None => raise (ValueError "invalid literal for int() with base 10")
      end
  end.

End PyStr.

(** ** The designation parser *)

Local Open Scope result_scope.

Definition InvalidDesignation : exception :=
  ValueError "NACA designation must be exactly 4 digits".

Definition parse_naca_4digit (naca_string : PyStr.str) : result (Z * Z * Z) :=
  if negb (PyStr.len naca_string =? 4)%Z || negb (PyStr.isdigit naca_string)
  then raise InvalidDesignation
  else
    c0 <- PyStr.getitem naca_string 0 ;;
    max_camber_percent <- PyStr.int c0 ;;
    c1 <- PyStr.getitem naca_string 1 ;;
    max_camber_position <- PyStr.int c1 ;;
    thickness_percent <- PyStr.int (PyStr.slice_from naca_string 2) ;;
    ret (max_camber_percent, max_camber_position, thickness_percent).

(** Re-encoding of the three parameters as the spec words it: one digit, one
    digit, and the thickness as a two-digit number. *)
Definition digit_char (d : Z) : PyStr.codepoint := (48 + Z.to_N d)%N.

Definition encode_designation (m p t : Z) : PyStr.str :=
  [digit_char m; digit_char p; digit_char (t / 10); digit_char (t mod 10)].

Definition four_ascii_digits (s : PyStr.str) : Prop :=
  length s = 4%nat /\ Forall (fun c => PyStr.is_ascii_digit c = true) s.

(** ** NumPy arrays of floats *)

Local Open Scope R_scope.

Module Np.

Definition array : Type := list R.

(** Comparisons of floats, as booleans. *)
Definition Rleb (a b : R) : bool := if Rle_dec a b then true else false.
Definition Rltb (a b : R) : bool := if Rlt_dec a b then true else false.
Definition Reqb (a b : R) : bool := if Req_dec_T a b then true else false.

(** [np.arange(0, num)] as floats *)
Definition arange (num : nat) : array := map INR (seq 0 num).

(** [a[-1] = v]; nothing to do on an empty array (never reached there). *)
Fixpoint set_last (a : array) (v : R) : array :=
  match a with
  | [] => []
  | [_] => [v]
  | u :: a' => u :: set_last a' v
  end.

(** [np.linspace(start, stop, num)] with the default [endpoint=True]; the
    message of its [ValueError] is shortened. *)
Definition linspace (start stop : R) (num : Z) : result array :=
  if (num <? 0)%Z
  then raise (ValueError "Number of samples must be non-negative.")
  else
    let div := (num - 1)%Z in
    let delta := stop - start in
    let y := arange (Z.to_nat num) in
    let y :=
      if (0 <? div)%Z then
        let step := delta / IZR div in
        if Reqb step 0
        then map (fun v => v / IZR div * delta) y
        else map (fun v => v * step) y
      else map (fun v => v * delta) y in
    let y := map (fun v => v + start) y in
    let y := if (1 <? num)%Z then set_last y stop else y in
    ret y.

(** [np.zeros_like(a)] *)
Definition zeros_like (a : array) : array := map (fun _ => 0) a.

(** Elementwise binary operation on two arrays of the same shape. *)
Definition zip_with (f : R -> R -> R) (a b : array) : array :=
  map (fun uv => f (fst uv) (snd uv)) (combine a b).

(** [a[mask]]: the elements of [a] where [mask] holds. *)
Fixpoint select (a : array) (mask : list bool) : array :=
  match a, mask with
  | u :: a', true :: mask' => u :: select a' mask'
  | _ :: a', false :: mask' => select a' mask'
  | _, _ => []
  end.

(** [a[mask] = vals]: the elements of [vals] written, in order, at the
    positions of [a] where [mask] holds. *)
Fixpoint assign_masked (a : array) (mask : list bool) (vals : array) : array :=
  match a, mask with
  | u :: a', true :: mask' =>
      match vals with
      | v :: vals' => v :: assign_masked a' mask' vals'
      | [] => a
      end
  | u :: a', false :: mask' => u :: assign_masked a' mask' vals
  | _, _ => a
  end.

(** [a[0]] *)
Definition first (a : array) : result R :=
  match a with
  | u :: _ => ret u
  | [] => raise (IndexError "index 0 is out of bounds for axis 0 with size 0")
  end.

(** [a[-1]] *)
Definition last (a : array) : result R :=
  match rev a with
  | u :: _ => ret u
  | [] => raise (IndexError "index -1 is out of bounds for axis 0 with size 0")
  end.

End Np.

(** ** The surface generator *)

(** The half-thickness [yt] at one station. *)
Definition thickness_at (t x : R) : R :=
  5 * t * (0.2969 * sqrt x - 0.1260 * x - 0.3516 * x ^ 2
           + 0.2843 * x ^ 3 - 0.1015 * x ^ 4).

(** The two camber branches and their slopes at one station. *)
Definition camber_fwd (m p x : R) : R := (m / p ^ 2) * (2 * p * x - x ^ 2).
Definition slope_fwd (m p x : R) : R := (2 * m / p ^ 2) * (p - x).
Definition camber_aft (m p x : R) : R :=
  (m / (1 - p) ^ 2) * ((1 - 2 * p) + 2 * p * x - x ^ 2).
Definition slope_aft (m p x : R) : R := (2 * m / (1 - p) ^ 2) * (p - x).

(** The camber line [yc] and its slope [dyc_dx] over the stations [x]. *)
Definition camber_line (m p : R) (x : Np.array) : Np.array * Np.array :=
  let yc := Np.zeros_like x in
  let dyc_dx := Np.zeros_like x in
  if Np.Rltb 0 m && Np.Rltb 0 p then
    let mask1 := map (fun xi => Np.Rleb xi p) x in
    let yc := Np.assign_masked yc mask1
                (map (camber_fwd m p) (Np.select x mask1)) in
    let dyc_dx := Np.assign_masked dyc_dx mask1
                    (map (slope_fwd m p) (Np.select x mask1)) in
    let mask2 := map (fun xi => Np.Rltb p xi) x in
    let yc := Np.assign_masked yc mask2
                (map (camber_aft m p) (Np.select x mask2)) in
    let dyc_dx := Np.assign_masked dyc_dx mask2
                    (map (slope_aft m p) (Np.select x mask2)) in
    (yc, dyc_dx)
  else (yc, dyc_dx).

(** The chordwise stations: cosine spacing of [num_points] angles. *)
Definition stations (num_points : Z) : result Np.array :=
  beta <- Np.linspace 0 PI num_points ;;
  ret (map (fun b => (1 - cos b) / 2) beta).

(** The returned tuple [(xu, yu, xl, yl)]. *)
Record surfaces : Type := mkSurfaces {
  xu : Np.array;
  yu : Np.array;
  xl : Np.array;
  yl : Np.array
}.

(** The local arrays of [naca_4digit_coordinates] at its [return]. *)
Record locals : Type := mkLocals {
  loc_x : Np.array;
  loc_yt : Np.array;
  loc_yc : Np.array;
  loc_dyc_dx : Np.array;
  loc_theta : Np.array;
  loc_out : surfaces
}.

Definition naca_4digit_locals (naca_designation : PyStr.str)
    (chord_length_mm : R) (num_points : Z) : result locals :=
  mpt <- parse_naca_4digit naca_designation ;;
  let '(m, p, t) := mpt in
  let m := IZR m / 100 in
  let p := IZR p / 10 in
  let t := IZR t / 100 in
  x <- stations num_points ;;
  let yt := map (thickness_at t) x in
  let '(yc, dyc_dx) := camber_line m p x in
  let theta := map atan dyc_dx in
  let xu := Np.zip_with Rminus x (Np.zip_with Rmult yt (map sin theta)) in
  let yu := Np.zip_with Rplus yc (Np.zip_with Rmult yt (map cos theta)) in
  let xl := Np.zip_with Rplus x (Np.zip_with Rmult yt (map sin theta)) in
  let yl := Np.zip_with Rminus yc (Np.zip_with Rmult yt (map cos theta)) in
  let xu := map (fun v => v * chord_length_mm) xu in
  let yu := map (fun v => v * chord_length_mm) yu in
  let xl := map (fun v => v * chord_length_mm) xl in
  let yl := map (fun v => v * chord_length_mm) yl in
  ret (mkLocals x yt yc dyc_dx theta (mkSurfaces xu yu xl yl)).

Definition naca_4digit_coordinates (naca_designation : PyStr.str)
    (chord_length_mm : R) (num_points : Z) : result surfaces :=
  l <- naca_4digit_locals naca_designation chord_length_mm num_points ;;
  ret (loc_out l).

(** ** The DXF sink, as far as the drawing decisions go

    The model space is the list of entities in the order they are added.
    Writing the file and printing the summary are left out. *)

Definition point : Type := (R * R)%type.

Inductive entity : Type :=
| LWPolyline (points : list point)
| Line (a b : point)
| Text (designation : PyStr.str) (chord : R) (height : R) (insert : point).

Definition create_dxf_airfoil (naca_designation : PyStr.str)
    (chord_length_mm : R) (num_points : Z) : result (list entity) :=
  s <- naca_4digit_coordinates naca_designation chord_length_mm num_points ;;
  let upper_points := combine (xu s) (yu s) in
  let msp := [LWPolyline upper_points] in
  let lower_points := combine (rev (xl s)) (rev (yl s)) in
  let msp := msp ++ [LWPolyline lower_points] in
  xu0 <- Np.first (xu s) ;;
  xl0 <- Np.first (xl s) ;;
  yu0 <- Np.first (yu s) ;;
  yl0 <- Np.first (yl s) ;;
  let msp :=
    if Np.Rltb 0.001 (Rabs (xu0 - xl0)) || Np.Rltb 0.001 (Rabs (yu0 - yl0))
    then msp ++ [Line (xu0, yu0) (xl0, yl0)]
    else msp in
  xu1 <- Np.last (xu s) ;;
  xl1 <- Np.last (xl s) ;;
  yu1 <- Np.last (yu s) ;;
  yl1 <- Np.last (yl s) ;;
  let msp :=
    if Np.Rltb 0.001 (Rabs (xu1 - xl1)) || Np.Rltb 0.001 (Rabs (yu1 - yl1))
    then msp ++ [Line (xu1, yu1) (xl1, yl1)]
    else msp in
  let msp :=
    msp ++ [Text naca_designation chord_length_mm (chord_length_mm * 0.05)
              (chord_length_mm * 0.1, chord_length_mm * 0.2)] in
  ret msp.

(** The two errors raised by the validation in [main]. *)
Definition InvalidChordLength : exception :=
  ValueError "Chord length must be positive".
Definition InsufficientResolution : exception :=
  ValueError "Number of points must be at least 10".

(** The validation and the call of [main], on the parsed command line
    [(naca, chord, num_points)].  A [ValueError] is caught by [main], printed
    and turned into exit status 1: that outcome is the left injection. *)
Definition main (naca : PyStr.str) (chord : R) (num_points : Z)
    : result (list entity) :=
  if Np.Rleb chord 0
  then raise InvalidChordLength
  else if (num_points <? 10)%Z
  then raise InsufficientResolution
  else create_dxf_airfoil naca chord num_points.

(** ** Station-wise reading of the generator

    What the array program computes at one station [x], used to state and
    prove the properties below; [station_wise] relates the two. *)

Definition yc_at (m p x : R) : R :=
  if Np.Rltb 0 m && Np.Rltb 0 p then
    if Np.Rltb p x then camber_aft m p x
    else if Np.Rleb x p then camber_fwd m p x
    else 0
  else 0.

Definition dyc_dx_at (m p x : R) : R :=
  if Np.Rltb 0 m && Np.Rltb 0 p then
    if Np.Rltb p x then slope_aft m p x
    else if Np.Rleb x p then slope_fwd m p x
    else 0
  else 0.

Definition theta_at (m p x : R) : R := atan (dyc_dx_at m p x).

Definition xu_at (m p t c x : R) : R :=
  (x - thickness_at t x * sin (theta_at m p x)) * c.
Definition yu_at (m p t c x : R) : R :=
  (yc_at m p x + thickness_at t x * cos (theta_at m p x)) * c.
Definition xl_at (m p t c x : R) : R :=
  (x + thickness_at t x * sin (theta_at m p x)) * c.
Definition yl_at (m p t c x : R) : R :=
  (yc_at m p x - thickness_at t x * cos (theta_at m p x)) * c.

(** The angle of station [i] out of [n], and its chordwise fraction. *)
Definition beta_at (n : Z) (i : nat) : R := INR i * (PI / IZR (n - 1)).
Definition x_at (n : Z) (i : nat) : R := (1 - cos (beta_at n i)) / 2.

(** Every coordinate of [s] multiplied by [k]. *)
Definition scale (k : R) (s : surfaces) : surfaces :=
  mkSurfaces (map (Rmult k) (xu s)) (map (Rmult k) (yu s))
             (map (Rmult k) (xl s)) (map (Rmult k) (yl s)).

(** ** The generator over IEEE binary64

    The same program with floats as the binary64 numbers of the machine:
    [+], [-], [*], [/] and [np.sqrt] are the correctly rounded operations.
    The results of [np.cos], [np.sin], [np.arctan] and of the power function
    at other exponents than 2 come from the C library and are fixed only at
    a few arguments; where a value is not fixed the model gives [None]. *)

Module F64.

Import PrimFloat.
#[local] Set Warnings "-inexact-float".
Local Open Scope float_scope.

Definition array : Type := list float.

(** [float(i)] for a Python int [0 <= i < 2**53] *)
Definition of_Z (i : Z) : float := of_uint63 (Uint63.of_Z i).

(** [np.pi] *)
Definition pi : float := 0x1.921fb54442d18p+1.

(** The cosine where its binary64 result is fixed: [cos(0) = 1] (C standard,
    Annex F), and [cos(np.pi) = -1], the correctly rounded value. *)
Definition cos (x : float) : option float :=
  if x =? 0 then Some 1 else if x =? pi then Some (-1) else None.

(** [sin(x) = x] and [atan(x) = x] for [x] a zero (Annex F). *)
Definition sin (x : float) : option float := if x =? 0 then Some x else None.
Definition arctan (x : float) : option float :=
  if x =? 0 then Some x else None.

(** [pow(1, y) = 1], and [pow(+0, y) = +0] for [y > 0] (Annex F). *)
Definition pow (x y : float) : option float :=
  if x =? 1 then Some 1
  else match classify x with
       | FloatClass.PZero => if 0 <? y then Some 0 else None
       | _ => None
       end.

(** A function without a fixed value somewhere leaves the whole array
    undetermined. *)
Fixpoint traverse {A B : Type} (f : A -> option B) (l : list A)
    : option (list B) :=
  match l with
  | [] => Some []
  | a :: l' =>
      match f a, traverse f l' with
      | Some b, Some bs => Some (b :: bs)
      | _, _ => None
      end
  end.

Definition arange (num : Z) : array :=
  map (fun i => of_Z (Z.of_nat i)) (seq 0 (Z.to_nat num)).

Fixpoint set_last (a : array) (v : float) : array :=
  match a with
  | [] => []
  | [_] => [v]
  | u :: a' => u :: set_last a' v
  end.

Definition linspace (start stop : float) (num : Z) : result array :=
  if (num <? 0)%Z
  then raise (ValueError "Number of samples must be non-negative.")
  else
    let div := (num - 1)%Z in
    let delta := stop - start in
    let y := arange num in
    let y :=
      if (0 <? div)%Z then
        let step := delta / of_Z div in
        if step =? 0
        then map (fun v => v / of_Z div * delta) y
        else map (fun v => v * step) y
      else map (fun v => v * delta) y in
    let y := map (fun v => v + start) y in
    let y := if (1 <? num)%Z then set_last y stop else y in
    ret y.

Definition zeros_like (a : array) : array := map (fun _ => 0) a.

Definition zip_with (f : float -> float -> float) (a b : array) : array :=
  map (fun uv => f (fst uv) (snd uv)) (combine a b).

Fixpoint select (a : array) (mask : list bool) : array :=
  match a, mask with
  | u :: a', true :: mask' => u :: select a' mask'
  | _ :: a', false :: mask' => select a' mask'
  | _, _ => []
  end.

Fixpoint assign_masked (a : array) (mask : list bool) (vals : array) : array :=
  match a, mask with
  | u :: a', true :: mask' =>
      match vals with
      | v :: vals' => v :: assign_masked a' mask' vals'
      | [] => a
      end
  | u :: a', false :: mask' => u :: assign_masked a' mask' vals
  | _, _ => a
  end.

(** [x**2] on an array is the product [x * x]; [x**3] and [x**4] go through
    the power function. *)
Definition thickness_at (t x : float) : option float :=
  match pow x 3, pow x 4 with
  | Some x3, Some x4 =>
      Some (5 * t * (0.2969 * sqrt x - 0.1260 * x - 0.3516 * (x * x)
                     + 0.2843 * x3 - 0.1015 * x4))
  | _, _ => None
  end.

(** [p**2] and [(1 - p)**2] on Python floats go through the power
    function. *)
Definition camber_line (m p : float) (x : array) : option (array * array) :=
  let yc := zeros_like x in
  let dyc_dx := zeros_like x in
  if (0 <? m) && (0 <? p) then
    match pow p 2, pow (1 - p) 2 with
    | Some p2, Some q2 =>
        let mask1 := map (fun xi => xi <=? p) x in
        let yc := assign_masked yc mask1
                    (map (fun xi => (m / p2) * (2 * p * xi - xi * xi))
                       (select x mask1)) in
        let dyc_dx := assign_masked dyc_dx mask1
                        (map (fun xi => (2 * m / p2) * (p - xi))
                           (select x mask1)) in
        let mask2 := map (fun xi => p <? xi) x in
        let yc := assign_masked yc mask2
                    (map (fun xi => (m / q2)
                                    * ((1 - 2 * p) + 2 * p * xi - xi * xi))
                       (select x mask2)) in
        let dyc_dx := assign_masked dyc_dx mask2
                        (map (fun xi => (2 * m / q2) * (p - xi))
                           (select x mask2)) in
        Some (yc, dyc_dx)
    | _, _ => None
    end
  else Some (yc, dyc_dx).

Record surfaces : Type := mkSurfaces {
  xu : array;
  yu : array;
  xl : array;
  yl : array
}.

(** [None]: the outcome depends on a value of the C library that the model
    does not fix; [Some (inl e)]: the call raises [e]; [Some (inr s)]: it
    returns [s]. *)
Definition naca_4digit_coordinates (naca_designation : PyStr.str)
    (chord_length_mm : float) (num_points : Z) : option (result surfaces) :=
  match parse_naca_4digit naca_designation with
  | inl e => Some (inl e)
  | inr (m, p, t) =>
      let m := of_Z m / 100 in
      let p := of_Z p / 10 in
      let t := of_Z t / 100 in
      match linspace 0 pi num_points with
      | inl e => Some (inl e)
      | inr beta =>
          match traverse cos beta with
          | None => None
          | Some cos_beta =>
              let x := map (fun cb => (1 - cb) / 2) cos_beta in
              match traverse (thickness_at t) x, camber_line m p x with
              | Some yt, Some (yc, dyc_dx) =>
                  match traverse arctan dyc_dx with
                  | None => None
                  | Some theta =>
                      match traverse sin theta, traverse cos theta with
                      | Some sin_theta, Some cos_theta =>
                          let xu := zip_with sub x (zip_with mul yt sin_theta) in
                          let yu := zip_with add yc (zip_with mul yt cos_theta) in
                          let xl := zip_with add x (zip_with mul yt sin_theta) in
                          let yl := zip_with sub yc (zip_with mul yt cos_theta) in
                          let xu := map (fun v => v * chord_length_mm) xu in
                          let yu := map (fun v => v * chord_length_mm) yu in
                          let xl := map (fun v => v * chord_length_mm) xl in
                          let yl := map (fun v => v * chord_length_mm) yl in
                          Some (inr (mkSurfaces xu yu xl yl))
                      | _, _ => None
                      end
                  end
              | _, _ => None
              end
          end
      end
  end.

End F64.

(** Some designations. *)
Definition naca_0012 : PyStr.str := [48; 48; 49; 50]%N.
Definition naca_2412 : PyStr.str := [50; 52; 49; 50]%N.
Definition naca_2012 : PyStr.str := [50; 48; 49; 50]%N.

(** The strings ["241"], ["24123"], ["24a2"], and the four Arabic-Indic
    digits one, two, three, four (U+0661 .. U+0664). *)
Definition str_241 : PyStr.str := [50; 52; 49]%N.
Definition str_24123 : PyStr.str := [50; 52; 49; 50; 51]%N.
Definition str_24a2 : PyStr.str := [50; 52; 97; 50]%N.
Definition arabic_1234 : PyStr.str := [0x661; 0x662; 0x663; 0x664]%N.

(** * Properties *)

Example parse_2412 :
  parse_naca_4digit naca_2412 = inr (2, 4, 12)%Z.
Proof. reflexivity. Qed.

(** ** Arrays *)

Lemma Rleb_true a b : Np.Rleb a b = true <-> a <= b.
Proof. unfold Np.Rleb. destruct (Rle_dec a b); split; intros; auto; discriminate. Qed.

Lemma Rleb_false a b : Np.Rleb a b = false <-> b < a.
Proof.
  unfold Np.Rleb. destruct (Rle_dec a b); split; intros; auto; try discriminate; lra.
Qed.

Lemma Rltb_true a b : Np.Rltb a b = true <-> a < b.
Proof. unfold Np.Rltb. destruct (Rlt_dec a b); split; intros; auto; discriminate. Qed.

Lemma Rltb_false a b : Np.Rltb a b = false <-> b <= a.
Proof.
  unfold Np.Rltb. destruct (Rlt_dec a b); split; intros; auto; try discriminate; lra.
Qed.

Lemma assign_masked_map (P : R -> bool) (f g : R -> R) (x : Np.array) :
  Np.assign_masked (map g x) (map P x) (map f (Np.select x (map P x))) =
  map (fun xi => if P xi then f xi else g xi) x.
Proof.
  induction x as [|xi x IH]; simpl; [reflexivity|].
  destruct (P xi); simpl; rewrite IH; reflexivity.
Qed.

Lemma zip_with_map (f : R -> R -> R) (g h : R -> R) (x : Np.array) :
  Np.zip_with f (map g x) (map h x) = map (fun xi => f (g xi) (h xi)) x.
Proof.
  unfold Np.zip_with. induction x as [|xi x IH]; simpl; [reflexivity|].
  now rewrite IH.
Qed.

Lemma zip_with_id_map (f : R -> R -> R) (h : R -> R) (x : Np.array) :
  Np.zip_with f x (map h x) = map (fun xi => f xi (h xi)) x.
Proof.
  rewrite <- (map_id x) at 1. apply (zip_with_map f (fun v => v) h).
Qed.

Lemma set_last_same (a : Np.array) (v : R) :
  List.last a v = v -> Np.set_last a v = a.
Proof.
  induction a as [|u a IH]; simpl; [reflexivity|].
  destruct a as [|u' a]; intros H; [now subst|].
  f_equal. apply IH. exact H.
Qed.

(** ** The camber line, station by station *)

Lemma camber_line_map (m p : R) (x : Np.array) :
  camber_line m p x = (map (yc_at m p) x, map (dyc_dx_at m p) x).
Proof.
  unfold camber_line, yc_at, dyc_dx_at, Np.zeros_like.
  destruct (Np.Rltb 0 m && Np.Rltb 0 p); [|reflexivity].
  rewrite !assign_masked_map.
  reflexivity.
Qed.

(** The generator's arrays are the station-wise functions mapped over the
    stations. *)
Lemma station_wise (d : PyStr.str) (c : R) (n : Z) (m p t : Z) (x : Np.array) :
  parse_naca_4digit d = inr (m, p, t) ->
  stations n = inr x ->
  let m' := IZR m / 100 in
  let p' := IZR p / 10 in
  let t' := IZR t / 100 in
  naca_4digit_locals d c n =
  inr (mkLocals x (map (thickness_at t') x)
         (map (yc_at m' p') x) (map (dyc_dx_at m' p') x)
         (map (theta_at m' p') x)
         (mkSurfaces (map (xu_at m' p' t' c) x) (map (yu_at m' p' t' c) x)
                     (map (xl_at m' p' t' c) x) (map (yl_at m' p' t' c) x))).
Proof.
  intros Hp Hx m' p' t'. unfold naca_4digit_locals.
  rewrite Hp. cbn [bind]. rewrite Hx. cbn [bind].
  fold m' p' t'. rewrite camber_line_map.
  unfold ret. do 2 f_equal.
  - now rewrite map_map.
  - rewrite !map_map, !zip_with_map, !zip_with_id_map, ?zip_with_map, !map_map.
    reflexivity.
Qed.

(** ** Station sampling *)

Lemma last_map_seq (f : nat -> R) (k : nat) (d : R) :
  List.last (map f (seq 0 (S k))) d = f k.
Proof.
  rewrite seq_S, map_app. simpl. apply last_last.
Qed.

Lemma IZR_pred_pos (n : Z) : (2 <= n)%Z -> 0 < IZR (n - 1).
Proof. intros H. apply IZR_lt. lia. Qed.

Lemma INR_pred (n : Z) : (1 <= n)%Z -> INR (Z.to_nat n - 1) = IZR (n - 1).
Proof.
  intros H. rewrite INR_IZR_INZ. f_equal. lia.
Qed.

Lemma beta_at_last (n : Z) :
  (2 <= n)%Z -> beta_at n (Z.to_nat n - 1) = PI.
Proof.
  intros H. unfold beta_at. rewrite INR_pred by lia.
  pose proof (IZR_pred_pos n H). field. lra.
Qed.

Lemma linspace_PI (n : Z) :
  (2 <= n)%Z ->
  Np.linspace 0 PI n = inr (map (beta_at n) (seq 0 (Z.to_nat n))).
Proof.
  intros H. unfold Np.linspace.
  destruct (Z.ltb_spec n 0); [lia|].
  destruct (Z.ltb_spec 0 (n - 1)); [|lia].
  destruct (Z.ltb_spec 1 n); [|lia].
  pose proof (IZR_pred_pos n H) as Hd. pose proof PI_RGT_0 as HPI.
  assert (Hstep : (PI - 0) / IZR (n - 1) <> 0).
  { apply Rgt_not_eq. apply Rdiv_lt_0_compat; lra. }
  unfold Np.Reqb. destruct (Req_dec_T ((PI - 0) / IZR (n - 1)) 0); [contradiction|].
  unfold Np.arange, ret. rewrite !map_map.
  assert (E : map (fun i => INR i * ((PI - 0) / IZR (n - 1)) + 0)
                (seq 0 (Z.to_nat n)) = map (beta_at n) (seq 0 (Z.to_nat n))).
  { apply map_ext. intros i. unfold beta_at. unfold Rdiv. ring. }
  rewrite E. f_equal. apply set_last_same.
  replace (Z.to_nat n) with (S (Z.to_nat n - 1)) at 1 by lia.
  rewrite last_map_seq. now apply beta_at_last.
Qed.

Lemma stations_ge2 (n : Z) :
  (2 <= n)%Z -> stations n = inr (map (x_at n) (seq 0 (Z.to_nat n))).
Proof.
  intros H. unfold stations. rewrite (linspace_PI n H). cbn [bind].
  unfold ret. now rewrite map_map.
Qed.

Lemma stations_nonneg (n : Z) :
  (0 <= n)%Z -> exists x, stations n = inr x /\ length x = Z.to_nat n.
Proof.
  intros H. unfold stations, Np.linspace.
  destruct (Z.ltb_spec n 0); [lia|]. cbn [bind ret].
  eexists. split; [reflexivity|].
  rewrite length_map.
  assert (L : forall (a : Np.array) v, length (Np.set_last a v) = length a).
  { induction a as [|u a IH]; intros v; [reflexivity|].
    destruct a as [|u' a]; [reflexivity|].
    change (S (length (Np.set_last (u' :: a) v)) = S (length (u' :: a))).
    now rewrite IH. }
  destruct (1 <? n)%Z; rewrite ?L; rewrite length_map;
    destruct (0 <? n - 1)%Z; try destruct (Np.Reqb _ _);
    rewrite length_map; unfold Np.arange; now rewrite length_map, length_seq.
Qed.

Lemma beta_at_range (n : Z) (i : nat) :
  (2 <= n)%Z -> (i < Z.to_nat n)%nat -> 0 <= beta_at n i <= PI.
Proof.
  intros H Hi. unfold beta_at.
  pose proof (IZR_pred_pos n H) as Hd. pose proof PI_RGT_0 as HPI.
  assert (Hi' : INR i <= IZR (n - 1)).
  { rewrite <- INR_pred by lia. apply le_INR. lia. }
  pose proof (pos_INR i) as Hi0.
  assert (E : INR i * (PI / IZR (n - 1)) = PI * (INR i / IZR (n - 1))) by (field; lra).
  rewrite E.
  assert (0 <= INR i / IZR (n - 1) <= 1).
  { split.
    - apply Rmult_le_pos; [lra|]. left. now apply Rinv_0_lt_compat.
    - apply Rmult_le_reg_r with (IZR (n - 1)); [lra|].
      unfold Rdiv. rewrite Rmult_assoc, Rinv_l by lra. lra. }
  nra.
Qed.

Lemma beta_at_mono (n : Z) (i j : nat) :
  (2 <= n)%Z -> (i <= j)%nat -> beta_at n i <= beta_at n j.
Proof.
  intros H Hij. unfold beta_at.
  pose proof (IZR_pred_pos n H) as Hd. pose proof PI_RGT_0 as HPI.
  apply Rmult_le_compat_r.
  - left. apply Rdiv_lt_0_compat; lra.
  - now apply le_INR.
Qed.

Lemma beta_at_interior (n : Z) (i : nat) :
  (2 <= n)%Z -> (0 < i)%nat -> (i < Z.to_nat n - 1)%nat ->
  0 < beta_at n i < PI.
Proof.
  intros H H0 Hi.
  pose proof (IZR_pred_pos n H) as Hd. pose proof PI_RGT_0 as HPI.
  split.
  - unfold beta_at. apply Rmult_lt_0_compat.
    + now apply lt_0_INR.
    + apply Rdiv_lt_0_compat; lra.
  - rewrite <- (beta_at_last n H). unfold beta_at.
    apply Rmult_lt_compat_r.
    + apply Rdiv_lt_0_compat; lra.
    + now apply lt_INR.
Qed.

Lemma x_at_range (n : Z) (i : nat) :
  (2 <= n)%Z -> (i < Z.to_nat n)%nat -> 0 <= x_at n i <= 1.
Proof.
  intros H Hi. unfold x_at.
  pose proof (COS_bound (beta_at n i)). lra.
Qed.

Lemma x_at_interior (n : Z) (i : nat) :
  (2 <= n)%Z -> (0 < i)%nat -> (i < Z.to_nat n - 1)%nat ->
  0 < x_at n i < 1.
Proof.
  intros H H0 Hi. unfold x_at.
  destruct (beta_at_interior n i H H0 Hi) as [Hb0 Hb1].
  pose proof PI_RGT_0 as HPI.
  assert (cos (beta_at n i) < cos 0).
  { apply cos_decreasing_1; lra. }
  assert (cos PI < cos (beta_at n i)).
  { apply cos_decreasing_1; lra. }
  rewrite cos_0 in *. rewrite cos_PI in *. lra.
Qed.

Lemma x_at_first (n : Z) : x_at n 0 = 0.
Proof. unfold x_at, beta_at. simpl. rewrite Rmult_0_l, cos_0. lra. Qed.

Lemma x_at_last (n : Z) : (2 <= n)%Z -> x_at n (Z.to_nat n - 1) = 1.
Proof. intros H. unfold x_at. rewrite (beta_at_last n H), cos_PI. lra. Qed.

Lemma x_at_mono (n : Z) (i j : nat) :
  (2 <= n)%Z -> (i <= j)%nat -> (j < Z.to_nat n)%nat -> x_at n i <= x_at n j.
Proof.
  intros H Hij Hj. unfold x_at.
  assert (cos (beta_at n j) <= cos (beta_at n i)).
  { pose proof (beta_at_range n i H ltac:(lia)).
    pose proof (beta_at_range n j H Hj).
    apply cos_decr_1; try lra. now apply beta_at_mono. }
  lra.
Qed.

Lemma nth_map_seq (f : nat -> R) (k i : nat) (d : R) :
  (i < k)%nat -> nth i (map f (seq 0 k)) d = f i.
Proof.
  intros H. rewrite (nth_indep _ d (f 0%nat)) by now rewrite length_map, length_seq.
  rewrite (map_nth f). now rewrite seq_nth.
Qed.

(** ** The designation parser *)

Lemma ascii_digit_bounds (c : PyStr.codepoint) :
  PyStr.is_ascii_digit c = true <-> (48 <= c <= 57)%N.
Proof.
  unfold PyStr.is_ascii_digit. rewrite andb_true_iff, !N.leb_le. tauto.
Qed.

Lemma find_head {A : Type} (f : A -> bool) (a : A) (l : list A) :
  f a = true -> find f (a :: l) = Some a.
Proof. intros H. simpl. now rewrite H. Qed.

(** The ASCII digits are the only block of decimal digits below U+0080, and
    no other digit lies below U+0080. *)
Lemma decimal_zeros_ascii :
  forallb (fun z => (z =? 48) || (128 <=? z))%N PyStr.decimal_zeros = true.
Proof. vm_compute. reflexivity. Qed.

Lemma other_digits_ascii :
  forallb (fun r => 128 <=? fst r)%N PyStr.other_digits = true.
Proof. vm_compute. reflexivity. Qed.

Lemma decimal_value_ascii_digit (c : PyStr.codepoint) :
  PyStr.is_ascii_digit c = true ->
  PyStr.decimal_value c = Some (Z.of_N (c - 48)).
Proof.
  intros H. apply ascii_digit_bounds in H. unfold PyStr.decimal_value.
  assert (E : find (fun z => (z <=? c) && (c <=? z + 9))%N PyStr.decimal_zeros
              = Some 48%N).
  { unfold PyStr.decimal_zeros. apply find_head.
    apply andb_true_iff. rewrite !N.leb_le. lia. }
  now rewrite E.
Qed.

Lemma decimal_value_ascii (c : PyStr.codepoint) :
  PyStr.is_ascii c = true -> PyStr.is_ascii_digit c = false ->
  PyStr.decimal_value c = None.
Proof.
  unfold PyStr.is_ascii. rewrite N.ltb_lt. intros Hc Hd.
  unfold PyStr.decimal_value.
  match goal with
  | |- context [find ?f ?l] => destruct (find f l) as [z|] eqn:E; [|reflexivity]
  end.
  apply find_some in E. destruct E as [Hin E].
  apply andb_true_iff in E. rewrite !N.leb_le in E.
  pose proof (proj1 (forallb_forall _ _) decimal_zeros_ascii z Hin) as Hz.
  apply orb_true_iff in Hz. rewrite N.eqb_eq, N.leb_le in Hz.
  destruct Hz as [-> | Hz]; [|lia].
  assert (PyStr.is_ascii_digit c = true) by (apply ascii_digit_bounds; lia).
  congruence.
Qed.

Lemma isdigit_char_ascii (c : PyStr.codepoint) :
  PyStr.is_ascii c = true -> PyStr.isdigit_char c = PyStr.is_ascii_digit c.
Proof.
  intros H. destruct (PyStr.is_ascii_digit c) eqn:E.
  - unfold PyStr.isdigit_char. now rewrite decimal_value_ascii_digit.
  - unfold PyStr.isdigit_char. rewrite (decimal_value_ascii c H E).
    match goal with
    | |- context [existsb ?f ?l] => destruct (existsb f l) eqn:X; [|reflexivity]
    end.
    apply existsb_exists in X. destruct X as (r & Hin & X).
    apply andb_true_iff in X. rewrite !N.leb_le in X.
    pose proof (proj1 (forallb_forall _ _) other_digits_ascii r Hin) as Hr.
    cbv beta in Hr. rewrite N.leb_le in Hr.
    unfold PyStr.is_ascii in H. rewrite N.ltb_lt in H.
    destruct r as [lo hi]. simpl in X, Hr. exfalso. lia.
Qed.

Lemma decimal_value_digit (c : PyStr.codepoint) (d : Z) :
  PyStr.decimal_value c = Some d -> (0 <= d <= 9)%Z.
Proof.
  unfold PyStr.decimal_value.
  match goal with
  | |- context [find ?f ?l] => destruct (find f l) as [z|] eqn:E; [|discriminate]
  end.
  apply find_some in E. destruct E as [_ E].
  apply andb_true_iff in E. rewrite !N.leb_le in E.
  intros [= <-]. lia.
Qed.

Lemma length_4 {A : Type} (s : list A) :
  length s = 4%nat -> exists a b c d, s = [a; b; c; d].
Proof.
  destruct s as [|a [|b [|c [|d [|e s]]]]]; try discriminate.
  intros _. now exists a, b, c, d.
Qed.

(** What [parse_naca_4digit] does on a string of four characters. *)
Lemma parse_four (a b c d : PyStr.codepoint) :
  parse_naca_4digit [a; b; c; d] =
  if negb (forallb PyStr.isdigit_char [a; b; c; d]) then inl InvalidDesignation
  else
    match PyStr.decimal_value a, PyStr.decimal_value b,
          PyStr.decimal_value c, PyStr.decimal_value d with
    | Some va, Some vb, Some vc, Some vd =>
        inr (va, vb, (10 * vc + vd)%Z)
    | _, _, _, _ =>
        inl (ValueError "invalid literal for int() with base 10")
    end.
Proof.
  unfold parse_naca_4digit, PyStr.len, PyStr.isdigit.
  change (Z.of_nat (length [a; b; c; d]) =? 4)%Z with true.
  cbn [negb orb].
  destruct (negb (forallb PyStr.isdigit_char [a; b; c; d])); [reflexivity|].
  unfold PyStr.getitem, PyStr.slice_from, PyStr.int.
  cbn [nth_error bind ret skipn PyStr.int_digits].
  destruct (PyStr.decimal_value a) as [va|]; [|reflexivity].
  cbn [bind ret]. destruct (PyStr.decimal_value b) as [vb|]; [|reflexivity].
  cbn [bind ret]. destruct (PyStr.decimal_value c) as [vc|]; [|reflexivity].
  destruct (PyStr.decimal_value d) as [vd|]; [|reflexivity].
  cbn [bind ret].
  replace (10 * 0 + va)%Z with va by lia.
  replace (10 * 0 + vb)%Z with vb by lia.
  replace (10 * 0 + vc)%Z with vc by lia. reflexivity.
Qed.

Lemma parse_wrong_length (s : PyStr.str) :
  length s <> 4%nat -> parse_naca_4digit s = inl InvalidDesignation.
Proof.
  intros H. unfold parse_naca_4digit, PyStr.len.
  destruct (Z.eqb_spec (Z.of_nat (length s)) 4); [lia|]. reflexivity.
Qed.

Lemma parse_params_range (s : PyStr.str) (m p t : Z) :
  parse_naca_4digit s = inr (m, p, t) ->
  (0 <= m <= 9 /\ 0 <= p <= 9 /\ 0 <= t <= 99)%Z.
Proof.
  intros H.
  destruct (Nat.eq_dec (length s) 4) as [L|L];
    [|rewrite (parse_wrong_length s L) in H; discriminate].
  destruct (length_4 s L) as (a & b & c & d & ->).
  rewrite parse_four in H.
  destruct (negb _); [discriminate|].
  destruct (PyStr.decimal_value a) as [va|] eqn:Ea; [|discriminate].
  destruct (PyStr.decimal_value b) as [vb|] eqn:Eb; [|discriminate].
  destruct (PyStr.decimal_value c) as [vc|] eqn:Ec; [|discriminate].
  destruct (PyStr.decimal_value d) as [vd|] eqn:Ed; [|discriminate].
  apply decimal_value_digit in Ea, Eb, Ec, Ed.
  remember (10 * vc + vd)%Z as tv eqn:Etv.
  injection H as <- <- <-. lia.
Qed.

Lemma forallb_false_Exists {A : Type} (f : A -> bool) (l : list A) :
  forallb f l = false <-> Exists (fun c => f c = false) l.
Proof.
  induction l as [|a l IH]; simpl.
  - split; [discriminate | intros H; inversion H].
  - rewrite andb_false_iff, IH. split.
    + intros [H|H]; [now left | now right].
    + intros H. inversion H; subst; [now left | now right].
Qed.

Lemma forallb_true_Forall {A : Type} (f : A -> bool) (l : list A) :
  forallb f l = true <-> Forall (fun c => f c = true) l.
Proof.
  rewrite forallb_forall, Forall_forall. reflexivity.
Qed.

Lemma parse_invalid_iff (s : PyStr.str) :
  parse_naca_4digit s = inl InvalidDesignation <->
  length s <> 4%nat \/ forallb PyStr.isdigit_char s = false.
Proof.
  destruct (Nat.eq_dec (length s) 4) as [L|L].
  - destruct (length_4 s L) as (a & b & c & d & ->). rewrite parse_four.
    destruct (forallb PyStr.isdigit_char [a; b; c; d]) eqn:E; cbn [negb].
    + split; [|intros [H|H]; [contradiction | discriminate]].
      destruct (PyStr.decimal_value a), (PyStr.decimal_value b),
        (PyStr.decimal_value c), (PyStr.decimal_value d); discriminate.
    + split; [now right | reflexivity].
  - rewrite (parse_wrong_length s L). split; [now left | reflexivity].
Qed.

Lemma parse_succeeds_iff (s : PyStr.str) :
  succeeds (parse_naca_4digit s) <->
  length s = 4%nat /\ Forall (fun c => PyStr.decimal_value c <> None) s.
Proof.
  destruct (Nat.eq_dec (length s) 4) as [L|L].
  - destruct (length_4 s L) as (a & b & c & d & ->). rewrite parse_four.
    unfold forallb, PyStr.isdigit_char.
    destruct (PyStr.decimal_value a) eqn:Ea, (PyStr.decimal_value b) eqn:Eb,
      (PyStr.decimal_value c) eqn:Ec, (PyStr.decimal_value d) eqn:Ed;
      cbn [andb negb].
    1: { split; [intros _ | intros _; eexists; reflexivity].
         split; [reflexivity|].
         repeat constructor; congruence. }
    all: split;
      [ intros [r H]; repeat match type of H with
          | (if ?b then _ else _) = _ => destruct b
          end; discriminate
      | intros [_ F];
        repeat match goal with
          | H : Forall _ (_ :: _) |- _ => inversion H; clear H; subst
          end; congruence ].
  - rewrite (parse_wrong_length s L).
    split; [intros [r H]; discriminate | intros [H _]; contradiction].
Qed.

Lemma four_ascii_digits_parse (s : PyStr.str) :
  four_ascii_digits s -> succeeds (parse_naca_4digit s).
Proof.
  intros [L F]. apply parse_succeeds_iff. split; [exact L|].
  apply Forall_impl with (2 := F).
  intros c Hc. now rewrite decimal_value_ascii_digit.
Qed.

Lemma decimal_value_digit_char (d : Z) :
  (0 <= d <= 9)%Z -> PyStr.decimal_value (digit_char d) = Some d.
Proof.
  intros H. unfold digit_char.
  rewrite decimal_value_ascii_digit by (apply ascii_digit_bounds; lia).
  f_equal. lia.
Qed.

(** The four digits written by [encode_designation] parse back to the
    parameters they were written from. *)
Lemma parse_encode_designation (m p t : Z) :
  (0 <= m <= 9)%Z -> (0 <= p <= 9)%Z -> (0 <= t <= 99)%Z ->
  parse_naca_4digit (encode_designation m p t) = inr (m, p, t).
Proof.
  intros Hm Hp Ht.
  pose proof (Z.div_mod t 10 ltac:(lia)) as E.
  pose proof (Z.mod_pos_bound t 10 ltac:(lia)) as B.
  assert (Hq : (0 <= t / 10 <= 9)%Z) by lia.
  unfold encode_designation. rewrite parse_four.
  unfold forallb, PyStr.isdigit_char.
  rewrite !decimal_value_digit_char by lia. cbn [andb negb].
  do 2 f_equal. lia.
Qed.

(** C2: every string of exactly four ASCII digits parses, and writing the
    three parameters back (one digit, one digit, two digits) gives the string
    again. *)
Theorem parse_encode_roundtrip (s : PyStr.str) :
  four_ascii_digits s ->
  exists m p t,
    parse_naca_4digit s = inr (m, p, t) /\ encode_designation m p t = s.
Proof.
  intros [L F].
  destruct (length_4 s L) as (a & b & c & d & ->).
  inversion F as [|? ? Ha F1]; subst. inversion F1 as [|? ? Hb F2]; subst.
  inversion F2 as [|? ? Hc F3]; subst. inversion F3 as [|? ? Hd _]; subst.
  rewrite parse_four.
  unfold forallb, PyStr.isdigit_char.
  rewrite !decimal_value_ascii_digit by assumption. cbn [andb negb].
  apply ascii_digit_bounds in Ha, Hb, Hc, Hd.
  do 3 eexists. split; [reflexivity|].
  unfold encode_designation, digit_char.
  assert (D : ((10 * Z.of_N (c - 48) + Z.of_N (d - 48)) / 10
               = Z.of_N (c - 48))%Z).
  { symmetry. apply (Z.div_unique _ _ _ (Z.of_N (d - 48))); lia. }
  assert (M : ((10 * Z.of_N (c - 48) + Z.of_N (d - 48)) mod 10
               = Z.of_N (d - 48))%Z).
  { symmetry. apply (Z.mod_unique _ _ (Z.of_N (c - 48))); lia. }
  rewrite D, M. repeat f_equal; lia.
Qed.

Lemma parse_encode_roundtrip_2412 :
  exists m p t,
    parse_naca_4digit naca_2412 = inr (m, p, t) /\
    encode_designation m p t = naca_2412.
Proof.
  apply (parse_encode_roundtrip naca_2412).
  split; [reflexivity | repeat constructor].
Defined.

(** C3, as the code has it: the designation error is raised exactly when the
    length is not 4 or [str.isdigit] rejects some character; on input made of
    ASCII characters that is exactly when the input is not four ASCII digits,
    and no other failure occurs there; ["241"], ["24123"] and ["24a2"] are
    rejected so.  In general a string parses exactly when it has four
    characters with a Unicode decimal digit value. *)
Theorem parse_rejects :
  (forall s, parse_naca_4digit s = inl InvalidDesignation <->
             length s <> 4%nat \/
             Exists (fun c => PyStr.isdigit_char c = false) s) /\
  (forall s, Forall (fun c => PyStr.is_ascii c = true) s ->
             (parse_naca_4digit s = inl InvalidDesignation <->
              ~ four_ascii_digits s) /\
             (fails (parse_naca_4digit s) <-> ~ four_ascii_digits s)) /\
  (forall s, succeeds (parse_naca_4digit s) <->
             length s = 4%nat /\
             Forall (fun c => PyStr.decimal_value c <> None) s) /\
  parse_naca_4digit str_241 = inl InvalidDesignation /\
  parse_naca_4digit str_24123 = inl InvalidDesignation /\
  parse_naca_4digit str_24a2 = inl InvalidDesignation.
Proof.
  split; [|split; [|split; [|repeat split; reflexivity]]].
  - intros s. rewrite parse_invalid_iff, forallb_false_Exists. reflexivity.
  - intros s A.
    assert (E : forallb PyStr.isdigit_char s = forallb PyStr.is_ascii_digit s).
    { induction A as [|c s Hc A IH]; [reflexivity|].
      simpl. now rewrite IH, isdigit_char_ascii. }
    assert (I : parse_naca_4digit s = inl InvalidDesignation <->
                ~ four_ascii_digits s).
    { rewrite parse_invalid_iff, E. unfold four_ascii_digits.
      rewrite <- forallb_true_Forall.
      destruct (forallb PyStr.is_ascii_digit s);
        destruct (Nat.eq_dec (length s) 4); intuition congruence. }
    split; [exact I|]. split.
    + intros [e He] D.
      destruct (four_ascii_digits_parse s D) as [r Hs]. congruence.
    + intros H. exists InvalidDesignation. now apply I.
  - exact parse_succeeds_iff.
Qed.

(** C3 fails as stated: four Arabic-Indic digits are not ASCII digits, and
    they parse. *)
Lemma parse_accepts_arabic_digits :
  ~ (fails (parse_naca_4digit arabic_1234) <-> ~ four_ascii_digits arabic_1234).
Proof.
  intros [_ H].
  destruct H as [e He]; [|discriminate].
  intros [_ F]. inversion F as [|? ? Hc _]. discriminate.
Qed.

(** ** Thickness and camber at one station *)

Lemma thickness_at_0 (t : R) : thickness_at t 0 = 0.
Proof. unfold thickness_at. rewrite sqrt_0. lra. Qed.


Lemma thickness_poly_pos (s : R) :
  0 < s < 1 ->
  0 < 0.2969 * s - 0.1260 * s ^ 2 - 0.3516 * s ^ 4
      + 0.2843 * s ^ 6 - 0.1015 * s ^ 8.
Proof.
  intros [H0 H1].
  assert (Q : 0 < 0.2948 + 0.1688 * s + 0.1688 * s ^ 2 - 0.1828 * s ^ 3
                  - 0.1828 * s ^ 4 + 0.1015 * s ^ 5 + 0.1015 * s ^ 6).
  { assert (0 <= s ^ 2 <= 1) by nra.
    assert (s ^ 3 <= s) by nra.
    assert (s ^ 4 <= s ^ 2) by nra.
    assert (0 <= s ^ 5) by nra.
    assert (0 <= s ^ 6) by nra.
    lra. }
  replace (0.2969 * s - 0.1260 * s ^ 2 - 0.3516 * s ^ 4
           + 0.2843 * s ^ 6 - 0.1015 * s ^ 8)
    with (s * (0.0021 + (1 - s)
               * (0.2948 + 0.1688 * s + 0.1688 * s ^ 2 - 0.1828 * s ^ 3
                  - 0.1828 * s ^ 4 + 0.1015 * s ^ 5 + 0.1015 * s ^ 6)))
    by nra.
  apply Rmult_lt_0_compat; [exact H0|].
  assert (0 < (1 - s)
              * (0.2948 + 0.1688 * s + 0.1688 * s ^ 2 - 0.1828 * s ^ 3
                 - 0.1828 * s ^ 4 + 0.1015 * s ^ 5 + 0.1015 * s ^ 6)).
  { apply Rmult_lt_0_compat; lra. }
  lra.
Qed.

Lemma thickness_at_pos (t x : R) :
  0 < t -> 0 < x < 1 -> 0 < thickness_at t x.
Proof.
  intros Ht [H0 H1]. unfold thickness_at.
  assert (Hs0 : 0 < sqrt x) by now apply sqrt_lt_R0.
  assert (Hs1 : sqrt x < 1).
  { rewrite <- sqrt_1. apply sqrt_lt_1; lra. }
  assert (Hx : x = sqrt x * sqrt x) by (symmetry; apply sqrt_sqrt; lra).
  pose proof (thickness_poly_pos (sqrt x) (conj Hs0 Hs1)) as P.
  apply Rmult_lt_0_compat; [lra|].
  remember (sqrt x) as s eqn:Es. clear Es. subst x.
  replace (0.2969 * s - 0.1260 * (s * s) - 0.3516 * (s * s) ^ 2
           + 0.2843 * (s * s) ^ 3 - 0.1015 * (s * s) ^ 4)
    with (0.2969 * s - 0.1260 * s ^ 2 - 0.3516 * s ^ 4
          + 0.2843 * s ^ 6 - 0.1015 * s ^ 8) by ring.
  exact P.
Qed.

Lemma cos_atan_pos (v : R) : 0 < cos (atan v).
Proof.
  pose proof (atan_bound v). apply cos_gt_0; lra.
Qed.

(** Without camber the camber line and its slope vanish, the offsets are
    vertical, and the two surfaces mirror each other. *)
Lemma no_camber_station (m p t c x : R) :
  m <= 0 \/ p <= 0 ->
  yc_at m p x = 0 /\ dyc_dx_at m p x = 0 /\ theta_at m p x = 0 /\
  xu_at m p t c x = x * c /\ xl_at m p t c x = x * c /\
  yu_at m p t c x = thickness_at t x * c /\
  yl_at m p t c x = - (thickness_at t x * c).
Proof.
  intros H.
  assert (G : Np.Rltb 0 m && Np.Rltb 0 p = false).
  { apply andb_false_iff. rewrite !Rltb_false. tauto. }
  assert (Hy : yc_at m p x = 0) by (unfold yc_at; now rewrite G).
  assert (Hd : dyc_dx_at m p x = 0) by (unfold dyc_dx_at; now rewrite G).
  unfold xu_at, xl_at, yu_at, yl_at, theta_at.
  rewrite Hy, Hd, atan_0, sin_0, cos_0. repeat split; ring.
Qed.

(** Two designations without camber and with the same thickness give the
    same arrays. *)
Lemma no_camber_same (m p m0 p0 t c : R) (x : Np.array) :
  m <= 0 \/ p <= 0 -> m0 <= 0 \/ p0 <= 0 ->
  map (yc_at m p) x = map (yc_at m0 p0) x /\
  map (dyc_dx_at m p) x = map (dyc_dx_at m0 p0) x /\
  map (theta_at m p) x = map (theta_at m0 p0) x /\
  map (xu_at m p t c) x = map (xu_at m0 p0 t c) x /\
  map (yu_at m p t c) x = map (yu_at m0 p0 t c) x /\
  map (xl_at m p t c) x = map (xl_at m0 p0 t c) x /\
  map (yl_at m p t c) x = map (yl_at m0 p0 t c) x.
Proof.
  intros G G0.
  repeat split; apply map_ext; intros xi;
    destruct (no_camber_station m p t c xi G) as (A1 & A2 & A3 & A4 & A5 & A6 & A7);
    destruct (no_camber_station m0 p0 t c xi G0)
      as (B1 & B2 & B3 & B4 & B5 & B6 & B7);
    congruence.
Qed.

Lemma camber_at_boundary (m p : R) :
  p <> 0 -> 1 - p <> 0 ->
  camber_fwd m p p = m /\ camber_aft m p p = m /\
  slope_fwd m p p = 0 /\ slope_aft m p p = 0.
Proof.
  intros H0 H1. unfold camber_fwd, camber_aft, slope_fwd, slope_aft.
  repeat split; field; assumption.
Qed.

Lemma piecewise_continuity (f g : R -> R) (a : R) :
  continuity_pt f a -> continuity_pt g a -> f a = g a ->
  continuity_pt (fun x => if Np.Rltb a x then g x else f x) a.
Proof.
  intros Hf Hg E eps Heps.
  destruct (Hf eps Heps) as (af & Haf & Hf').
  destruct (Hg eps Heps) as (ag & Hag & Hg').
  exists (Rmin af ag). split; [now apply Rmin_pos|].
  intros x [Hx Hd].
  assert (Hdf : dist R_met x a < af).
  { eapply Rlt_le_trans; [exact Hd | apply Rmin_l]. }
  assert (Hdg : dist R_met x a < ag).
  { eapply Rlt_le_trans; [exact Hd | apply Rmin_r]. }
  specialize (Hf' x (conj Hx Hdf)). specialize (Hg' x (conj Hx Hdg)).
  unfold Np.Rltb. destruct (Rlt_dec a a) as [Haa|_]; [lra|].
  destruct (Rlt_dec a x); [now rewrite E | exact Hf'].
Qed.

Lemma continuity_pt_eq (f g : R -> R) (a : R) :
  (forall x, f x = g x) -> continuity_pt f a -> continuity_pt g a.
Proof.
  intros E Hf eps Heps.
  destruct (Hf eps Heps) as (al & Hal & H).
  exists al. split; [exact Hal|].
  intros x Hx. rewrite <- !E. now apply H.
Qed.

Lemma yc_at_cambered (m p x : R) :
  0 < m -> 0 < p ->
  yc_at m p x = (if Np.Rltb p x then camber_aft m p x else camber_fwd m p x) /\
  dyc_dx_at m p x = (if Np.Rltb p x then slope_aft m p x else slope_fwd m p x).
Proof.
  intros Hm Hp. unfold yc_at, dyc_dx_at.
  apply Rltb_true in Hm, Hp. rewrite Hm, Hp. cbn [andb].
  destruct (Np.Rltb p x) eqn:E; [split; reflexivity|].
  apply Rltb_false in E. apply Rleb_true in E. rewrite E. split; reflexivity.
Qed.

Lemma camber_continuous_at_boundary (m p : R) :
  0 < m -> 0 < p < 1 ->
  continuity_pt (yc_at m p) p /\ continuity_pt (dyc_dx_at m p) p.
Proof.
  intros Hm [Hp0 Hp1].
  destruct (camber_at_boundary m p) as (E1 & E2 & E3 & E4); try lra.
  split.
  - apply continuity_pt_eq
      with (f := fun x => if Np.Rltb p x then camber_aft m p x
                          else camber_fwd m p x).
    + intros x. symmetry. now apply yc_at_cambered.
    + apply piecewise_continuity; [| |congruence].
      * unfold camber_fwd. reg.
      * unfold camber_aft. reg.
  - apply continuity_pt_eq
      with (f := fun x => if Np.Rltb p x then slope_aft m p x
                          else slope_fwd m p x).
    + intros x. symmetry. now apply yc_at_cambered.
    + apply piecewise_continuity; [| |congruence].
      * unfold slope_fwd. reg.
      * unfold slope_aft. reg.
Qed.

(** C5: for camber digit [m > 0] and position digit [p] with
    [0 < p/10 < 1], the forward and aft camber formulas both give [m/100] at
    the station [x = p/10] and the two slope formulas both give [0] there;
    the camber line and the slope the generator computes are continuous at
    that station. *)
Theorem camber_branches_agree (m p : Z) :
  (0 < m)%Z -> 0 < IZR p / 10 < 1 ->
  let m' := IZR m / 100 in
  let p' := IZR p / 10 in
  camber_fwd m' p' p' = m' /\ camber_aft m' p' p' = m' /\
  slope_fwd m' p' p' = 0 /\ slope_aft m' p' p' = 0 /\
  yc_at m' p' p' = m' /\ dyc_dx_at m' p' p' = 0 /\
  continuity_pt (yc_at m' p') p' /\ continuity_pt (dyc_dx_at m' p') p'.
Proof.
  intros Hm Hp m' p'. fold p' in Hp.
  assert (Hm' : 0 < m').
  { unfold m'. apply IZR_lt in Hm. lra. }
  destruct (camber_at_boundary m' p') as (E1 & E2 & E3 & E4); try lra.
  destruct (yc_at_cambered m' p' p' Hm' (proj1 Hp)) as [Y D].
  assert (F : Np.Rltb p' p' = false) by (apply Rltb_false; lra).
  rewrite F in Y, D.
  destruct (camber_continuous_at_boundary m' p' Hm' Hp) as [C1 C2].
  repeat split; try assumption; congruence.
Qed.

Lemma camber_branches_agree_2412 :
  camber_fwd (2 / 100) (4 / 10) (4 / 10) = 2 / 100 /\
  camber_aft (2 / 100) (4 / 10) (4 / 10) = 2 / 100.
Proof.
  assert (H0 : (0 < 2)%Z) by lia.
  assert (H1 : 0 < IZR 4 / 10 < 1) by lra.
  destruct (camber_branches_agree 2 4 H0 H1) as (E1 & E2 & _).
  split; [exact E1 | exact E2].
Defined.

(** ** The generator on a parsed designation *)

Lemma nth_over_stations (f : R -> R) (n : Z) (i : nat) (d : R) :
  (i < Z.to_nat n)%nat ->
  nth i (map f (map (x_at n) (seq 0 (Z.to_nat n)))) d = f (x_at n i).
Proof.
  intros H. rewrite map_map. now rewrite nth_map_seq.
Qed.

Lemma length_over_stations (f : R -> R) (n : Z) :
  length (map f (map (x_at n) (seq 0 (Z.to_nat n)))) = Z.to_nat n.
Proof. now rewrite !length_map, length_seq. Qed.

Lemma coordinates_of_locals (d : PyStr.str) (c : R) (n : Z) (l : locals) :
  naca_4digit_locals d c n = inr l ->
  naca_4digit_coordinates d c n = inr (loc_out l).
Proof.
  intros H. unfold naca_4digit_coordinates. now rewrite H.
Qed.

(** A parsed designation and a non-negative point count always give a
    result. *)
Lemma locals_succeed (d : PyStr.str) (c : R) (n : Z) :
  succeeds (parse_naca_4digit d) -> (0 <= n)%Z ->
  succeeds (naca_4digit_locals d c n).
Proof.
  intros [[[m p] t] Hp] Hn.
  destruct (stations_nonneg n Hn) as (x & Hx & _).
  eexists. exact (station_wise d c n m p t x Hp Hx).
Qed.

(** C8: with at least two points the station fractions of a call are as many
    as requested, lie in [0, 1], never decrease, start at 0 and end at 1. *)
Theorem station_fractions (d : PyStr.str) (c : R) (n : Z) :
  succeeds (parse_naca_4digit d) -> (2 <= n)%Z ->
  exists l,
    naca_4digit_locals d c n = inr l /\
    Z.of_nat (length (loc_x l)) = n /\
    (forall i, (i < length (loc_x l))%nat -> 0 <= nth i (loc_x l) 0 <= 1) /\
    (forall i j, (i <= j)%nat -> (j < length (loc_x l))%nat ->
                 nth i (loc_x l) 0 <= nth j (loc_x l) 0) /\
    nth 0 (loc_x l) 0 = 0 /\
    nth (length (loc_x l) - 1) (loc_x l) 0 = 1.
Proof.
  intros [[[m p] t] Hp] Hn.
  pose proof (station_wise d c n m p t _ Hp (stations_ge2 n Hn)) as H.
  cbv zeta in H. eexists. split; [exact H|].
  cbn [loc_x]. rewrite length_map, length_seq.
  split; [lia|]. split; [|split; [|split]].
  - intros i Hi. rewrite nth_map_seq by exact Hi. now apply x_at_range.
  - intros i j Hij Hj. rewrite !nth_map_seq by lia. now apply x_at_mono.
  - rewrite nth_map_seq by lia. apply x_at_first.
  - rewrite nth_map_seq by lia. now apply x_at_last.
Qed.

Lemma station_fractions_2412 :
  exists l,
    naca_4digit_locals naca_2412 100 100 = inr l /\
    Z.of_nat (length (loc_x l)) = 100%Z /\
    (forall i, (i < length (loc_x l))%nat -> 0 <= nth i (loc_x l) 0 <= 1) /\
    (forall i j, (i <= j)%nat -> (j < length (loc_x l))%nat ->
                 nth i (loc_x l) 0 <= nth j (loc_x l) 0) /\
    nth 0 (loc_x l) 0 = 0 /\
    nth (length (loc_x l) - 1) (loc_x l) 0 = 1.
Proof.
  apply (station_fractions naca_2412 100 100).
  - exists (2, 4, 12)%Z. reflexivity.
  - lia.
Defined.

(** C4: for ["0012"], any positive chord and at least two points, the camber
    height and the camber slope are 0 at every station, and each upper
    y-value is the negative of the lower y-value at the same index. *)
Theorem symmetric_0012 (c : R) (n : Z) :
  0 < c -> (2 <= n)%Z ->
  exists l,
    naca_4digit_locals naca_0012 c n = inr l /\
    Z.of_nat (length (loc_x l)) = n /\
    Z.of_nat (length (loc_yc l)) = n /\
    Z.of_nat (length (loc_dyc_dx l)) = n /\
    Z.of_nat (length (yu (loc_out l))) = n /\
    Z.of_nat (length (yl (loc_out l))) = n /\
    (forall i, (i < Z.to_nat n)%nat ->
       nth i (loc_yc l) 0 = 0 /\ nth i (loc_dyc_dx l) 0 = 0 /\
       nth i (yu (loc_out l)) 0 = - nth i (yl (loc_out l)) 0).
Proof.
  intros Hc Hn.
  assert (Hp : parse_naca_4digit naca_0012 = inr (0, 0, 12)%Z) by reflexivity.
  pose proof (station_wise naca_0012 c n _ _ _ _ Hp (stations_ge2 n Hn)) as H.
  cbv zeta in H. eexists. split; [exact H|].
  cbn [loc_x loc_yc loc_dyc_dx loc_out yu yl].
  rewrite !length_over_stations, length_map, length_seq.
  repeat (split; [lia|]).
  intros i Hi. rewrite !nth_over_stations by exact Hi.
  assert (G : 0 / 100 <= 0 \/ 0 / 10 <= 0) by (left; lra).
  destruct (no_camber_station (0 / 100) (0 / 10) (12 / 100) c (x_at n i) G)
    as (Y & D & _ & _ & _ & U & L).
  rewrite Y, D, U, L. repeat split; ring.
Qed.

Lemma symmetric_0012_50mm :
  exists l,
    naca_4digit_locals naca_0012 50 150 = inr l /\
    Z.of_nat (length (loc_x l)) = 150%Z /\
    Z.of_nat (length (loc_yc l)) = 150%Z /\
    Z.of_nat (length (loc_dyc_dx l)) = 150%Z /\
    Z.of_nat (length (yu (loc_out l))) = 150%Z /\
    Z.of_nat (length (yl (loc_out l))) = 150%Z /\
    (forall i, (i < Z.to_nat 150)%nat ->
       nth i (loc_yc l) 0 = 0 /\ nth i (loc_dyc_dx l) 0 = 0 /\
       nth i (yu (loc_out l)) 0 = - nth i (yl (loc_out l)) 0).
Proof.
  apply (symmetric_0012 50 150); [lra | lia].
Defined.

(** C6: a designation with camber position 0 and camber above 0 gives the
    very arrays of the symmetric designation ["00tt"] of the same thickness:
    camber height 0 and slope 0 at every station, equal x-values and
    mirrored y-values on the two surfaces. *)
Theorem zero_position_is_symmetric (d : PyStr.str) (c : R) (n : Z) (m t : Z) :
  parse_naca_4digit d = inr (m, 0, t)%Z -> (0 < m)%Z -> (0 <= n)%Z ->
  exists l,
    naca_4digit_locals d c n = inr l /\
    naca_4digit_locals (encode_designation 0 0 t) c n = inr l /\
    naca_4digit_coordinates d c n =
    naca_4digit_coordinates (encode_designation 0 0 t) c n /\
    Z.of_nat (length (loc_x l)) = n /\
    loc_yc l = Np.zeros_like (loc_x l) /\
    loc_dyc_dx l = Np.zeros_like (loc_x l) /\
    xu (loc_out l) = xl (loc_out l) /\
    yu (loc_out l) = map Ropp (yl (loc_out l)).
Proof.
  intros Hp Hm Hn.
  destruct (parse_params_range d m 0 t Hp) as (_ & _ & Ht).
  assert (Hp0 : parse_naca_4digit (encode_designation 0 0 t) = inr (0, 0, t)%Z)
    by (apply parse_encode_designation; lia).
  destruct (stations_nonneg n Hn) as (x & Hx & Lx).
  pose proof (station_wise d c n _ _ _ x Hp Hx) as H.
  pose proof (station_wise _ c n _ _ _ x Hp0 Hx) as H0.
  cbv zeta in H, H0.
  assert (G : IZR m / 100 <= 0 \/ 0 / 10 <= 0) by (right; lra).
  assert (G0 : 0 / 100 <= 0 \/ 0 / 10 <= 0) by (left; lra).
  destruct (no_camber_same _ _ _ _ (IZR t / 100) c x G G0)
    as (E1 & E2 & E3 & E4 & E5 & E6 & E7).
  rewrite <- E1, <- E2, <- E3, <- E4, <- E5, <- E6, <- E7 in H0.
  eexists. split; [exact H|]. split; [exact H0|].
  split.
  { unfold naca_4digit_coordinates. now rewrite H, H0. }
  cbn [loc_x loc_yc loc_dyc_dx loc_out xu yu xl yl].
  split; [lia|]. unfold Np.zeros_like.
  repeat split; rewrite ?map_map; apply map_ext; intros xi;
    destruct (no_camber_station _ _ (IZR t / 100) c xi G)
      as (A1 & A2 & A3 & A4 & A5 & A6 & A7);
    rewrite ?A1, ?A2, ?A4, ?A5, ?A6, ?A7; ring.
Qed.

Lemma zero_position_is_symmetric_2012 :
  exists l,
    naca_4digit_locals naca_2012 100 100 = inr l /\
    naca_4digit_locals (encode_designation 0 0 12) 100 100 = inr l /\
    naca_4digit_coordinates naca_2012 100 100 =
    naca_4digit_coordinates (encode_designation 0 0 12) 100 100 /\
    Z.of_nat (length (loc_x l)) = 100%Z /\
    loc_yc l = Np.zeros_like (loc_x l) /\
    loc_dyc_dx l = Np.zeros_like (loc_x l) /\
    xu (loc_out l) = xl (loc_out l) /\
    yu (loc_out l) = map Ropp (yl (loc_out l)).
Proof.
  apply (zero_position_is_symmetric naca_2012 100 100 2 12);
    [reflexivity | lia | lia].
Defined.

Lemma coordinates_ge2 (d : PyStr.str) (c : R) (n : Z) (m p t : Z) :
  parse_naca_4digit d = inr (m, p, t) -> (2 <= n)%Z ->
  let m' := IZR m / 100 in
  let p' := IZR p / 10 in
  let t' := IZR t / 100 in
  let x := map (x_at n) (seq 0 (Z.to_nat n)) in
  naca_4digit_coordinates d c n =
  inr (mkSurfaces (map (xu_at m' p' t' c) x) (map (yu_at m' p' t' c) x)
                  (map (xl_at m' p' t' c) x) (map (yl_at m' p' t' c) x)).
Proof.
  intros Hp Hn m' p' t' x.
  pose proof (station_wise d c n m p t _ Hp (stations_ge2 n Hn)) as H.
  cbv zeta in H. now rewrite (coordinates_of_locals _ _ _ _ H).
Qed.




(** ** Leading edge, interior stations, trailing edge *)

Lemma leading_edge_station (m p t c : R) :
  xu_at m p t c 0 = 0 /\ xl_at m p t c 0 = 0 /\
  yu_at m p t c 0 = yl_at m p t c 0.
Proof.
  unfold xu_at, xl_at, yu_at, yl_at. rewrite thickness_at_0.
  repeat split; ring.
Qed.

Lemma surface_gap (m p t c x : R) :
  yu_at m p t c x - yl_at m p t c x =
  2 * thickness_at t x * cos (theta_at m p x) * c /\
  xu_at m p t c x - xl_at m p t c x =
  - (2 * thickness_at t x * sin (theta_at m p x) * c).
Proof. unfold xu_at, xl_at, yu_at, yl_at. split; ring. Qed.

Lemma upper_above_lower (m p t c x : R) :
  0 < t -> 0 < c -> 0 < x < 1 -> yl_at m p t c x < yu_at m p t c x.
Proof.
  intros Ht Hc Hx.
  destruct (surface_gap m p t c x) as [G _].
  pose proof (thickness_at_pos t x Ht Hx) as T.
  assert (C : 0 < cos (theta_at m p x)) by apply cos_atan_pos.
  assert (P : 0 < thickness_at t x * cos (theta_at m p x))
    by (apply Rmult_lt_0_compat; assumption).
  assert (0 < thickness_at t x * cos (theta_at m p x) * c)
    by (apply Rmult_lt_0_compat; assumption).
  lra.
Qed.

(** C9: for ["2412"], chord 100 and 100 points, the upper and lower points
    of index 0 are within 0.001 of each other and of [x = 0], and at every
    index strictly between 0 and 99 the upper y-value is above the lower
    one. *)
Theorem naca_2412_profile :
  exists s,
    naca_4digit_coordinates naca_2412 100 100 = inr s /\
    length (xu s) = 100%nat /\ length (yu s) = 100%nat /\
    length (xl s) = 100%nat /\ length (yl s) = 100%nat /\
    Rabs (nth 0 (xu s) 0) <= 0.001 /\
    Rabs (nth 0 (xl s) 0) <= 0.001 /\
    Rabs (nth 0 (xu s) 0 - nth 0 (xl s) 0) <= 0.001 /\
    Rabs (nth 0 (yu s) 0 - nth 0 (yl s) 0) <= 0.001 /\
    (forall i, (0 < i < 99)%nat -> nth i (yl s) 0 < nth i (yu s) 0).
Proof.
  assert (Hp : parse_naca_4digit naca_2412 = inr (2, 4, 12)%Z) by reflexivity.
  assert (Hn : (2 <= 100)%Z) by lia.
  pose proof (coordinates_ge2 naca_2412 100 100 _ _ _ Hp Hn) as H.
  cbv zeta in H. eexists. split; [exact H|].
  cbn [xu yu xl yl]. rewrite !length_over_stations.
  repeat (split; [reflexivity|]).
  rewrite !nth_over_stations by lia. rewrite x_at_first.
  destruct (leading_edge_station (2 / 100) (4 / 10) (12 / 100) 100)
    as (U & L & Y).
  rewrite U, L, Y.
  replace (0 - 0) with 0 by ring.
  replace (yl_at (2 / 100) (4 / 10) (12 / 100) 100 0
           - yl_at (2 / 100) (4 / 10) (12 / 100) 100 0) with 0 by ring.
  rewrite Rabs_R0.
  repeat (split; [lra|]).
  intros i Hi. rewrite !nth_over_stations by lia.
  apply upper_above_lower; try lra.
  apply x_at_interior; lia.
Qed.

(** ** Input validation *)

Lemma succeeds_not_fails {A : Type} (c : result A) : succeeds c -> ~ fails c.
Proof. intros [a Ha] [e He]. congruence. Qed.

Lemma coordinates_succeed (d : PyStr.str) (c : R) (n : Z) :
  succeeds (parse_naca_4digit d) -> (0 <= n)%Z ->
  succeeds (naca_4digit_coordinates d c n).
Proof.
  intros Hp Hn. destruct (locals_succeed d c n Hp Hn) as [l Hl].
  exists (loc_out l). now apply coordinates_of_locals.
Qed.

(** C1, as the code has it: the generator checks neither the chord nor the
    point count, and returns a result for every chord once the designation
    parses and the point count is not negative.  The checks are those of
    [main]: a chord [<= 0] is refused with the chord error, and with a
    positive chord a point count below 10 (so also below 2) is refused with
    the point-count error. *)
Theorem main_validates (naca : PyStr.str) (chord : R) (num_points : Z) :
  (chord <= 0 -> main naca chord num_points = inl InvalidChordLength) /\
  (0 < chord -> (num_points < 10)%Z ->
   main naca chord num_points = inl InsufficientResolution) /\
  (succeeds (parse_naca_4digit naca) -> (0 <= num_points)%Z ->
   succeeds (naca_4digit_coordinates naca chord num_points)).
Proof.
  split; [|split].
  - intros H. unfold main. apply Rleb_true in H. now rewrite H.
  - intros H Hn. unfold main. apply Rleb_false in H. rewrite H.
    destruct (Z.ltb_spec num_points 10); [reflexivity | lia].
  - apply coordinates_succeed.
Qed.

Lemma main_validates_examples :
  main naca_2412 (-5) 100 = inl InvalidChordLength /\
  main naca_2412 10 1 = inl InsufficientResolution.
Proof.
  split.
  - apply (proj1 (main_validates naca_2412 (-5) 100)). lra.
  - apply (proj1 (proj2 (main_validates naca_2412 10 1))); [lra | lia].
Defined.

(** C1 fails as stated: the generator returns its arrays for chord -5 with
    100 points, and for chord 10 with 1 point. *)
Lemma generator_does_not_validate :
  ~ fails (naca_4digit_coordinates naca_2412 (-5) 100) /\
  ~ fails (naca_4digit_coordinates naca_2412 10 1).
Proof.
  split; apply succeeds_not_fails; apply coordinates_succeed;
    try lia; exists (2, 4, 12)%Z; reflexivity.
Qed.

(** ** The drawing *)

Lemma first_over_stations (f : R -> R) (n : Z) :
  (2 <= n)%Z ->
  Np.first (map f (map (x_at n) (seq 0 (Z.to_nat n)))) = inr (f 0).
Proof.
  intros H. replace (Z.to_nat n) with (S (Z.to_nat n - 1)) by lia.
  cbn [seq map Np.first ret]. now rewrite x_at_first.
Qed.

Lemma last_over_stations (f : R -> R) (n : Z) :
  (2 <= n)%Z ->
  Np.last (map f (map (x_at n) (seq 0 (Z.to_nat n)))) = inr (f 1).
Proof.
  intros H. unfold Np.last.
  replace (Z.to_nat n) with (S (Z.to_nat n - 1)) at 1 by lia.
  rewrite seq_S, !map_app, rev_app_distr. cbn [map rev app Nat.add ret].
  now rewrite x_at_last.
Qed.

Lemma Rltb_Rabs_small (tol v : R) :
  - tol <= v <= tol -> Np.Rltb tol (Rabs v) = false.
Proof.
  intros H. apply Rltb_false. apply Rabs_le. exact H.
Qed.

(** What [create_dxf_airfoil] draws for a parsed designation and at least
    two points: the two polylines, no segment at the leading edge, the
    segment at the trailing edge when its test holds, and the label. *)
Lemma create_dxf_ge2 (d : PyStr.str) (c : R) (n : Z) (m p t : Z) :
  parse_naca_4digit d = inr (m, p, t) -> (2 <= n)%Z ->
  let m' := IZR m / 100 in
  let p' := IZR p / 10 in
  let t' := IZR t / 100 in
  let xu1 := xu_at m' p' t' c 1 in
  let yu1 := yu_at m' p' t' c 1 in
  let xl1 := xl_at m' p' t' c 1 in
  let yl1 := yl_at m' p' t' c 1 in
  exists s,
    naca_4digit_coordinates d c n = inr s /\
    Np.last (xu s) = inr xu1 /\ Np.last (yu s) = inr yu1 /\
    Np.last (xl s) = inr xl1 /\ Np.last (yl s) = inr yl1 /\
    create_dxf_airfoil d c n =
    inr ([LWPolyline (combine (xu s) (yu s));
          LWPolyline (combine (rev (xl s)) (rev (yl s)))]
         ++ (if Np.Rltb 0.001 (Rabs (xu1 - xl1))
                || Np.Rltb 0.001 (Rabs (yu1 - yl1))
             then [Line (xu1, yu1) (xl1, yl1)] else [])
         ++ [Text d c (c * 0.05) (c * 0.1, c * 0.2)]).
Proof.
  intros Hp Hn m' p' t' xu1 yu1 xl1 yl1.
  pose proof (coordinates_ge2 d c n m p t Hp Hn) as H. cbv zeta in H.
  fold m' p' t' in H.
  eexists. split; [exact H|]. cbn [xu yu xl yl].
  rewrite !last_over_stations by exact Hn.
  repeat (split; [reflexivity|]).
  unfold create_dxf_airfoil. rewrite H. cbn [bind xu yu xl yl].
  rewrite !first_over_stations by exact Hn.
  rewrite !last_over_stations by exact Hn. cbn [bind ret].
  destruct (leading_edge_station m' p' t' c) as (U & L & Y).
  rewrite U, L, Y.
  rewrite (Rltb_Rabs_small 0.001 (0 - 0)) by lra.
  rewrite (Rltb_Rabs_small 0.001 (yl_at m' p' t' c 0 - yl_at m' p' t' c 0))
    by lra.
  cbn [orb]. fold xu1 yu1 xl1 yl1.
  destruct (Np.Rltb 0.001 (Rabs (xu1 - xl1))
            || Np.Rltb 0.001 (Rabs (yu1 - yl1))); reflexivity.
Qed.






(** * Further properties of the code *)

(** ** Degenerate point counts *)

Lemma stations_0 : stations 0 = inr [].
Proof. reflexivity. Qed.

Lemma stations_1 : stations 1 = inr [0].
Proof.
  unfold stations, Np.linspace.
  change (1 <? 0)%Z with false. change (0 <? 1 - 1)%Z with false.
  change (1 <? 1)%Z with false. change (Z.to_nat 1) with 1%nat.
  unfold Np.arange. cbn [seq map bind ret]. unfold ret.
  do 2 f_equal.
  replace (INR 0 * (PI - 0) + 0) with 0 by (simpl; ring).
  rewrite cos_0. lra.
Qed.

Lemma stations_negative (n : Z) :
  (n < 0)%Z ->
  stations n = inl (ValueError "Number of samples must be non-negative.").
Proof.
  intros H. unfold stations, Np.linspace.
  destruct (Z.ltb_spec n 0); [reflexivity | lia].
Qed.


Lemma locals_parse_error (d : PyStr.str) (c : R) (n : Z) (e : exception) :
  parse_naca_4digit d = inl e -> naca_4digit_locals d c n = inl e.
Proof. intros H. unfold naca_4digit_locals. now rewrite H. Qed.

Lemma locals_negative (d : PyStr.str) (c : R) (n : Z) :
  succeeds (parse_naca_4digit d) -> (n < 0)%Z ->
  naca_4digit_locals d c n =
  inl (ValueError "Number of samples must be non-negative.").
Proof.
  intros [[[m p] t] Hp] Hn. unfold naca_4digit_locals.
  rewrite Hp. cbn [bind]. now rewrite (stations_negative n Hn).
Qed.

Lemma coordinates_inl (d : PyStr.str) (c : R) (n : Z) (e : exception) :
  naca_4digit_coordinates d c n = inl e <-> naca_4digit_locals d c n = inl e.
Proof.
  unfold naca_4digit_coordinates.
  destruct (naca_4digit_locals d c n) as [e'|l]; cbn [bind ret];
    split; intros H; try discriminate; congruence.
Qed.

(** X1: the generator fails in exactly two ways, whatever the chord: with the
    parser's error when the designation does not parse, and with the
    [ValueError] of [np.linspace] when the designation parses and the point
    count is negative. *)
Theorem coordinates_failure (d : PyStr.str) (c : R) (n : Z) (e : exception) :
  naca_4digit_coordinates d c n = inl e <->
  parse_naca_4digit d = inl e \/
  (succeeds (parse_naca_4digit d) /\ (n < 0)%Z /\
   e = ValueError "Number of samples must be non-negative.").
Proof.
  rewrite coordinates_inl.
  destruct (parse_naca_4digit d) as [e0|mpt] eqn:Hp.
  - rewrite (locals_parse_error d c n e0 Hp). split.
    + intros H. left. congruence.
    + intros [H|[[r Hr] _]]; [congruence | discriminate].
  - assert (S : succeeds (parse_naca_4digit d)) by (exists mpt; exact Hp).
    destruct (Z_lt_le_dec n 0) as [Hn|Hn].
    + rewrite (locals_negative d c n S Hn). split.
      * intros [= <-]. right. rewrite <- Hp. auto.
      * intros [H | (_ & _ & ->)]; [discriminate | reflexivity].
    + destruct (locals_succeed d c n S Hn) as [l Hl]. rewrite Hl. split.
      * discriminate.
      * intros [H|(_ & H & _)]; [discriminate | lia].
Qed.

(** X2: for a designation that parses and a point count [n >= 0], the
    stations, the half-thickness, the camber line, its slope, the angle and
    the four returned arrays all have exactly [n] elements. *)
Theorem coordinates_lengths (d : PyStr.str) (c : R) (n : Z) :
  succeeds (parse_naca_4digit d) -> (0 <= n)%Z ->
  exists l,
    naca_4digit_locals d c n = inr l /\
    naca_4digit_coordinates d c n = inr (loc_out l) /\
    Forall (fun a : Np.array => Z.of_nat (length a) = n)
      [loc_x l; loc_yt l; loc_yc l; loc_dyc_dx l; loc_theta l;
       xu (loc_out l); yu (loc_out l); xl (loc_out l); yl (loc_out l)].
Proof.
  intros [[[m p] t] Hp] Hn.
  destruct (stations_nonneg n Hn) as (x & Hx & Lx).
  pose proof (station_wise d c n m p t x Hp Hx) as H. cbv zeta in H.
  eexists. split; [exact H|].
  split; [now apply coordinates_of_locals|].
  cbn [loc_x loc_yt loc_yc loc_dyc_dx loc_theta loc_out xu yu xl yl].
  repeat constructor; rewrite ?length_map; lia.
Qed.

Lemma coordinates_lengths_0012 :
  exists l,
    naca_4digit_locals naca_0012 50 150 = inr l /\
    naca_4digit_coordinates naca_0012 50 150 = inr (loc_out l) /\
    Forall (fun a : Np.array => Z.of_nat (length a) = 150%Z)
      [loc_x l; loc_yt l; loc_yc l; loc_dyc_dx l; loc_theta l;
       xu (loc_out l); yu (loc_out l); xl (loc_out l); yl (loc_out l)].
Proof.
  apply (coordinates_lengths naca_0012 50 150).
  - exists (0, 0, 12)%Z. reflexivity.
  - lia.
Defined.

Lemma yc_at_0 (m p : R) : yc_at m p 0 = 0.
Proof.
  unfold yc_at. destruct (Np.Rltb 0 m && Np.Rltb 0 p) eqn:G; [|reflexivity].
  apply andb_true_iff in G. destruct G as [_ G]. apply Rltb_true in G.
  assert (E : Np.Rltb p 0 = false) by (apply Rltb_false; lra).
  assert (E' : Np.Rleb 0 p = true) by (apply Rleb_true; lra).
  rewrite E, E'. unfold camber_fwd. ring.
Qed.

Lemma origin_station (m p t c : R) :
  xu_at m p t c 0 = 0 /\ yu_at m p t c 0 = 0 /\
  xl_at m p t c 0 = 0 /\ yl_at m p t c 0 = 0.
Proof.
  unfold xu_at, yu_at, xl_at, yl_at.
  rewrite thickness_at_0, yc_at_0. repeat split; ring.
Qed.

(** X3: with one point the generator returns the single leading-edge point:
    all four arrays are the one-element array holding 0, for every chord;
    the drawing is then two one-point polylines and the label, without any
    segment. *)
Theorem single_point_profile (d : PyStr.str) (c : R) :
  succeeds (parse_naca_4digit d) ->
  naca_4digit_coordinates d c 1 = inr (mkSurfaces [0] [0] [0] [0]) /\
  create_dxf_airfoil d c 1 =
  inr [LWPolyline [(0, 0)]; LWPolyline [(0, 0)];
       Text d c (c * 0.05) (c * 0.1, c * 0.2)].
Proof.
  intros [[[m p] t] Hp].
  pose proof (station_wise d c 1 m p t _ Hp stations_1) as H. cbv zeta in H.
  apply coordinates_of_locals in H. cbn [loc_out map] in H.
  destruct (origin_station (IZR m / 100) (IZR p / 10) (IZR t / 100) c)
    as (E1 & E2 & E3 & E4).
  rewrite E1, E2, E3, E4 in H.
  split; [exact H|].
  unfold create_dxf_airfoil. rewrite H.
  cbn [bind ret xu yu xl yl Np.first Np.last rev app combine].
  rewrite (Rltb_Rabs_small 0.001 (0 - 0)) by lra.
  reflexivity.
Qed.

Lemma single_point_profile_2412 :
  naca_4digit_coordinates naca_2412 100 1 = inr (mkSurfaces [0] [0] [0] [0]) /\
  create_dxf_airfoil naca_2412 100 1 =
  inr [LWPolyline [(0, 0)]; LWPolyline [(0, 0)];
       Text naca_2412 100 (100 * 0.05) (100 * 0.1, 100 * 0.2)].
Proof.
  apply (single_point_profile naca_2412 100).
  exists (2, 4, 12)%Z. reflexivity.
Defined.

(** ** Geometry of the generated points *)

Lemma nth_map_lt (f : R -> R) (x : Np.array) (i : nat) (d d' : R) :
  (i < length x)%nat -> nth i (map f x) d = f (nth i x d').
Proof.
  intros H. rewrite (nth_indep _ d (f d')) by now rewrite length_map.
  apply map_nth.
Qed.

Lemma normalized_params (d : PyStr.str) (m p t : Z) :
  parse_naca_4digit d = inr (m, p, t) ->
  0 <= IZR m / 100 <= 9 / 100 /\ 0 <= IZR p / 10 <= 9 / 10 /\
  0 <= IZR t / 100 <= 99 / 100.
Proof.
  intros H. destruct (parse_params_range d m p t H) as ([? ?] & [? ?] & [? ?]).
  repeat match goal with
  | H : (_ <= _)%Z |- _ => apply IZR_le in H
  end.
  lra.
Qed.

Lemma yc_at_1 (m p : R) : p < 1 -> yc_at m p 1 = 0.
Proof.
  intros H. unfold yc_at.
  destruct (Np.Rltb 0 m && Np.Rltb 0 p); [|reflexivity].
  assert (E : Np.Rltb p 1 = true) by now apply Rltb_true.
  rewrite E. unfold camber_aft. ring.
Qed.




(** X6: with at least two points the camber line starts and ends on the
    chord line: the camber height is 0 at the first and at the last station,
    so the two trailing-edge points are mirror images about [y = 0]. *)
Theorem camber_closes (d : PyStr.str) (c : R) (n : Z) :
  succeeds (parse_naca_4digit d) -> (2 <= n)%Z ->
  exists l,
    naca_4digit_locals d c n = inr l /\
    nth 0 (loc_yc l) 0 = 0 /\
    nth (Z.to_nat n - 1) (loc_yc l) 0 = 0 /\
    nth (Z.to_nat n - 1) (yu (loc_out l)) 0 =
    - nth (Z.to_nat n - 1) (yl (loc_out l)) 0.
Proof.
  intros [[[m p] t] Hp] Hn.
  pose proof (station_wise d c n m p t _ Hp (stations_ge2 n Hn)) as H.
  cbv zeta in H. eexists. split; [exact H|].
  cbn [loc_yc loc_out yu yl].
  destruct (normalized_params d m p t Hp) as (_ & Bp & _).
  rewrite !nth_over_stations by lia.
  rewrite x_at_first, (x_at_last n Hn).
  unfold yu_at, yl_at. rewrite yc_at_0, yc_at_1 by lra.
  repeat split; ring.
Qed.

Lemma camber_closes_2412 :
  exists l,
    naca_4digit_locals naca_2412 100 100 = inr l /\
    nth 0 (loc_yc l) 0 = 0 /\
    nth (Z.to_nat 100 - 1) (loc_yc l) 0 = 0 /\
    nth (Z.to_nat 100 - 1) (yu (loc_out l)) 0 =
    - nth (Z.to_nat 100 - 1) (yl (loc_out l)) 0.
Proof.
  apply (camber_closes naca_2412 100 100).
  - exists (2, 4, 12)%Z. reflexivity.
  - lia.
Defined.





Lemma thickness_at_zero (x : R) : thickness_at (0 / 100) x = 0.
Proof. unfold thickness_at. lra. Qed.

(** X10: a designation with thickness digits [00] has no thickness at all:
    the upper and the lower arrays are equal, both being the camber line
    scaled by the chord, for every chord and every point count [n >= 0]. *)
Theorem zero_thickness_collapses (d : PyStr.str) (c : R) (n : Z) (m p : Z) :
  parse_naca_4digit d = inr (m, p, 0)%Z -> (0 <= n)%Z ->
  exists l,
    naca_4digit_locals d c n = inr l /\
    xu (loc_out l) = xl (loc_out l) /\
    yu (loc_out l) = yl (loc_out l) /\
    xu (loc_out l) = map (fun v => v * c) (loc_x l) /\
    yu (loc_out l) = map (fun v => v * c) (loc_yc l).
Proof.
  intros Hp Hn.
  destruct (stations_nonneg n Hn) as (x & Hx & Lx).
  pose proof (station_wise d c n m p 0 x Hp Hx) as H. cbv zeta in H.
  eexists. split; [exact H|].
  cbn [loc_x loc_yc loc_out xu yu xl yl]. rewrite ?map_map.
  repeat split; apply map_ext; intros xi;
    unfold xu_at, yu_at, xl_at, yl_at; rewrite thickness_at_zero; ring.
Qed.

Lemma zero_thickness_collapses_2400 :
  exists l,
    naca_4digit_locals [50; 52; 48; 48]%N 100 100 = inr l /\
    xu (loc_out l) = xl (loc_out l) /\
    yu (loc_out l) = yl (loc_out l) /\
    xu (loc_out l) = map (fun v => v * 100) (loc_x l) /\
    yu (loc_out l) = map (fun v => v * 100) (loc_yc l).
Proof.
  apply (zero_thickness_collapses [50; 52; 48; 48]%N 100 100 2 4);
    [reflexivity | lia].
Defined.

(** X11: when the camber digit or the position digit is 0 the offsets are
    vertical: both x-arrays are the stations times the chord and the
    y-arrays are plus and minus the half-thickness times the chord; with at
    least two points the x-values run from 0 to the chord. *)
Theorem uncambered_offsets_vertical (d : PyStr.str) (c : R) (n : Z)
    (m p t : Z) :
  parse_naca_4digit d = inr (m, p, t) -> m = 0%Z \/ p = 0%Z -> (0 <= n)%Z ->
  exists l,
    naca_4digit_locals d c n = inr l /\
    xu (loc_out l) = map (fun v => v * c) (loc_x l) /\
    xl (loc_out l) = map (fun v => v * c) (loc_x l) /\
    yu (loc_out l) = map (fun v => v * c) (loc_yt l) /\
    yl (loc_out l) = map (fun v => - (v * c)) (loc_yt l) /\
    ((2 <= n)%Z ->
     nth 0 (xu (loc_out l)) 0 = 0 /\
     nth (Z.to_nat n - 1) (xu (loc_out l)) 0 = c).
Proof.
  intros Hp Hmp Hn.
  destruct (stations_nonneg n Hn) as (x & Hx & Lx).
  pose proof (station_wise d c n m p t x Hp Hx) as H. cbv zeta in H.
  eexists. split; [exact H|].
  cbn [loc_x loc_yt loc_out xu yu xl yl]. rewrite ?map_map.
  assert (G : IZR m / 100 <= 0 \/ IZR p / 10 <= 0).
  { destruct Hmp as [-> | ->]; [left | right]; lra. }
  assert (A : forall xi,
             xu_at (IZR m / 100) (IZR p / 10) (IZR t / 100) c xi = xi * c).
  { intros xi.
    now destruct (no_camber_station _ _ (IZR t / 100) c xi G)
      as (_ & _ & _ & -> & _). }
  repeat (split; [apply map_ext; intros xi;
    destruct (no_camber_station _ _ (IZR t / 100) c xi G)
      as (_ & _ & _ & A4 & A5 & A6 & A7); assumption|]).
  intros H2. rewrite (stations_ge2 n H2) in Hx. injection Hx as <-.
  rewrite !nth_over_stations by lia.
  rewrite !A, x_at_first, (x_at_last n H2). split; ring.
Qed.

Lemma uncambered_offsets_vertical_0012 :
  exists l,
    naca_4digit_locals naca_0012 50 150 = inr l /\
    xu (loc_out l) = map (fun v => v * 50) (loc_x l) /\
    xl (loc_out l) = map (fun v => v * 50) (loc_x l) /\
    yu (loc_out l) = map (fun v => v * 50) (loc_yt l) /\
    yl (loc_out l) = map (fun v => - (v * 50)) (loc_yt l) /\
    ((2 <= 150)%Z ->
     nth 0 (xu (loc_out l)) 0 = 0 /\
     nth (Z.to_nat 150 - 1) (xu (loc_out l)) 0 = 50).
Proof.
  apply (uncambered_offsets_vertical naca_0012 50 150 0 0 12);
    [reflexivity | now left | lia].
Defined.

(** X12: the generator accepts a chord that is 0 or negative: the chord 0
    gives arrays of zeros, and the chord [-c] gives the arrays of the chord
    [c] with every sign flipped. *)
Theorem unvalidated_chord (d : PyStr.str) (c : R) (n : Z) :
  succeeds (parse_naca_4digit d) -> (0 <= n)%Z ->
  exists s,
    naca_4digit_coordinates d c n = inr s /\
    naca_4digit_coordinates d (- c) n = inr (scale (-1) s) /\
    naca_4digit_coordinates d 0 n = inr (scale 0 s).
Proof.
  intros [[[m p] t] Hp] Hn.
  destruct (stations_nonneg n Hn) as (x & Hx & Lx).
  pose proof (station_wise d c n m p t x Hp Hx) as H.
  pose proof (station_wise d (- c) n m p t x Hp Hx) as Hneg.
  pose proof (station_wise d 0 n m p t x Hp Hx) as H0.
  cbv zeta in H, Hneg, H0.
  apply coordinates_of_locals in H, Hneg, H0. cbn [loc_out] in H, Hneg, H0.
  eexists. split; [exact H|].
  rewrite Hneg, H0. unfold scale. cbn [xu yu xl yl]. rewrite !map_map.
  split; do 2 f_equal; apply map_ext; intros xi;
    unfold xu_at, yu_at, xl_at, yl_at; ring.
Qed.

Lemma unvalidated_chord_2412 :
  exists s,
    naca_4digit_coordinates naca_2412 5 100 = inr s /\
    naca_4digit_coordinates naca_2412 (- 5) 100 = inr (scale (-1) s) /\
    naca_4digit_coordinates naca_2412 0 100 = inr (scale 0 s).
Proof.
  apply (unvalidated_chord naca_2412 5 100).
  - exists (2, 4, 12)%Z. reflexivity.
  - lia.
Defined.

(** ** The drawing, continued *)

Lemma first_nonempty (a : Np.array) : a <> [] -> succeeds (Np.first a).
Proof.
  destruct a as [|u a]; [congruence|]. intros _. now exists u.
Qed.

Lemma last_nonempty (a : Np.array) : a <> [] -> succeeds (Np.last a).
Proof.
  intros H. unfold Np.last. destruct (rev a) as [|u r] eqn:E.
  - apply (f_equal (@rev R)) in E. rewrite rev_involutive in E. now subst.
  - now exists u.
Qed.

Lemma create_dxf_parse_error (d : PyStr.str) (c : R) (n : Z) (e : exception) :
  parse_naca_4digit d = inl e -> create_dxf_airfoil d c n = inl e.
Proof.
  intros H. unfold create_dxf_airfoil, naca_4digit_coordinates.
  now rewrite (locals_parse_error d c n e H).
Qed.

Lemma create_dxf_negative (d : PyStr.str) (c : R) (n : Z) :
  succeeds (parse_naca_4digit d) -> (n < 0)%Z ->
  create_dxf_airfoil d c n =
  inl (ValueError "Number of samples must be non-negative.").
Proof.
  intros H Hn. unfold create_dxf_airfoil, naca_4digit_coordinates.
  now rewrite (locals_negative d c n H Hn).
Qed.

Lemma create_dxf_no_points (d : PyStr.str) (c : R) :
  succeeds (parse_naca_4digit d) ->
  create_dxf_airfoil d c 0 =
  inl (IndexError "index 0 is out of bounds for axis 0 with size 0").
Proof.
  intros [[[m p] t] Hp].
  pose proof (station_wise d c 0 m p t _ Hp stations_0) as H. cbv zeta in H.
  apply coordinates_of_locals in H. cbn [loc_out map] in H.
  unfold create_dxf_airfoil. rewrite H. reflexivity.
Qed.

Lemma create_dxf_succeeds (d : PyStr.str) (c : R) (n : Z) :
  succeeds (parse_naca_4digit d) -> (1 <= n)%Z ->
  succeeds (create_dxf_airfoil d c n).
Proof.
  intros [[[m p] t] Hp] Hn.
  destruct (stations_nonneg n ltac:(lia)) as (x & Hx & Lx).
  pose proof (station_wise d c n m p t x Hp Hx) as H. cbv zeta in H.
  apply coordinates_of_locals in H. cbn [loc_out] in H.
  assert (Nx : forall f : R -> R, map f x <> []).
  { intros f E. apply (f_equal (@length R)) in E.
    rewrite length_map in E. simpl in E. lia. }
  unfold create_dxf_airfoil. rewrite H. cbn [bind xu yu xl yl].
  repeat match goal with
  | |- context [Np.first (map ?f x)] =>
      let v := fresh "v" in let E := fresh "E" in
      destruct (first_nonempty (map f x) (Nx f)) as [v E];
      rewrite E; cbn [bind]
  | |- context [Np.last (map ?f x)] =>
      let v := fresh "v" in let E := fresh "E" in
      destruct (last_nonempty (map f x) (Nx f)) as [v E];
      rewrite E; cbn [bind]
  end.
  eexists. reflexivity.
Qed.

Lemma create_dxf_succeeds_inv (d : PyStr.str) (c : R) (n : Z) :
  succeeds (create_dxf_airfoil d c n) ->
  succeeds (parse_naca_4digit d) /\ (1 <= n)%Z.
Proof.
  intros [msp Hm].
  destruct (parse_naca_4digit d) as [e|mpt] eqn:Hp.
  { rewrite (create_dxf_parse_error d c n e Hp) in Hm. discriminate. }
  assert (S : succeeds (parse_naca_4digit d)) by (exists mpt; exact Hp).
  rewrite <- Hp. split; [exact S|].
  destruct (Z_lt_le_dec n 0) as [Hn|Hn].
  { rewrite (create_dxf_negative d c n S Hn) in Hm. discriminate. }
  destruct (Z.eq_dec n 0) as [->|H0]; [|lia].
  rewrite (create_dxf_no_points d c S) in Hm. discriminate.
Qed.

(** X13: [create_dxf_airfoil] returns a drawing exactly when the designation
    parses and there is at least one point; a parser error is passed on
    unchanged, a negative point count gives the [ValueError] of
    [np.linspace], and the point count 0 gives an [IndexError] at [xu[0]]. *)
Theorem create_dxf_outcome (d : PyStr.str) (c : R) (n : Z) :
  (succeeds (create_dxf_airfoil d c n) <->
   succeeds (parse_naca_4digit d) /\ (1 <= n)%Z) /\
  (forall e, parse_naca_4digit d = inl e -> create_dxf_airfoil d c n = inl e) /\
  (succeeds (parse_naca_4digit d) -> (n < 0)%Z ->
   create_dxf_airfoil d c n =
   inl (ValueError "Number of samples must be non-negative.")) /\
  (succeeds (parse_naca_4digit d) ->
   create_dxf_airfoil d c 0 =
   inl (IndexError "index 0 is out of bounds for axis 0 with size 0")).
Proof.
  split; [|split; [|split]].
  - split.
    + apply create_dxf_succeeds_inv.
    + intros [S Hn]. now apply create_dxf_succeeds.
  - intros e. apply create_dxf_parse_error.
  - apply create_dxf_negative.
  - apply create_dxf_no_points.
Qed.

Lemma combine_snoc {A B : Type} (a : list A) (b : list B) (u : A) (v : B) :
  length a = length b ->
  combine (a ++ [u]) (b ++ [v]) = combine a b ++ [(u, v)].
Proof.
  revert b. induction a as [|x a IH]; intros [|y b] L; try discriminate.
  - reflexivity.
  - simpl. f_equal. apply IH. now injection L.
Qed.

Lemma combine_rev_rev {A B : Type} (a : list A) (b : list B) :
  length a = length b -> combine (rev a) (rev b) = rev (combine a b).
Proof.
  revert b. induction a as [|x a IH]; intros [|y b] L; try discriminate.
  - reflexivity.
  - simpl. injection L as L.
    rewrite combine_snoc by now rewrite !length_rev.
    now rewrite IH.
Qed.

(** X14: for a parsed designation, any chord and at least two points the
    drawing is, in this order, the upper polyline with [n] points from the
    leading to the trailing edge, the lower polyline with [n] points from
    the trailing back to the leading edge, at most one segment, and the
    label.  Both polylines touch at the origin; no segment is ever drawn at
    the leading edge; the segment, when drawn, joins the end of the upper
    polyline to the start of the lower one. *)
Theorem drawing_outline (d : PyStr.str) (c : R) (n : Z) :
  succeeds (parse_naca_4digit d) -> (2 <= n)%Z ->
  exists s closing,
    let upper := combine (xu s) (yu s) in
    let lower := rev (combine (xl s) (yl s)) in
    naca_4digit_coordinates d c n = inr s /\
    create_dxf_airfoil d c n =
    inr ([LWPolyline upper; LWPolyline lower] ++ closing
         ++ [Text d c (c * 0.05) (c * 0.1, c * 0.2)]) /\
    length upper = Z.to_nat n /\ length lower = Z.to_nat n /\
    nth 0 upper (0, 0) = (0, 0) /\
    nth (Z.to_nat n - 1) lower (0, 0) = (0, 0) /\
    (closing = [] \/
     closing = [Line (nth (Z.to_nat n - 1) upper (0, 0)) (nth 0 lower (0, 0))]).
Proof.
  intros [[[m p] t] Hp] Hn.
  destruct (create_dxf_ge2 d c n m p t Hp Hn)
    as (s & Hs & _ & _ & _ & _ & Hdxf).
  pose proof (coordinates_ge2 d c n m p t Hp Hn) as H. cbv zeta in H.
  rewrite H in Hs. injection Hs as <-. cbn [xu yu xl yl] in Hdxf.
  set (m' := IZR m / 100) in *. set (p' := IZR p / 10) in *.
  set (t' := IZR t / 100) in *.
  set (x := map (x_at n) (seq 0 (Z.to_nat n))) in *.
  assert (Lf : forall f : R -> R, length (map f x) = Z.to_nat n).
  { intros f. unfold x. apply length_over_stations. }
  assert (Nf : forall (f : R -> R) i, (i < Z.to_nat n)%nat ->
                 nth i (map f x) 0 = f (x_at n i)).
  { intros f i Hi. unfold x. now apply nth_over_stations. }
  rewrite combine_rev_rev in Hdxf by now rewrite !Lf.
  eexists. eexists. cbv zeta.
  split; [exact H|]. split; [exact Hdxf|]. cbn [xu yu xl yl].
  rewrite length_rev, !length_combine, !Lf.
  split; [lia|]. split; [lia|].
  destruct (origin_station m' p' t' c) as (E1 & E2 & E3 & E4).
  rewrite rev_nth by (rewrite length_combine, !Lf; lia).
  rewrite rev_nth by (rewrite length_combine, !Lf; lia).
  rewrite length_combine, !Lf.
  replace (Nat.min (Z.to_nat n) (Z.to_nat n) - S (Z.to_nat n - 1))%nat
    with 0%nat by lia.
  replace (Nat.min (Z.to_nat n) (Z.to_nat n) - 1)%nat
    with (Z.to_nat n - 1)%nat by lia.
  rewrite !combine_nth by now rewrite !Lf.
  rewrite !Nf by lia. rewrite x_at_first, (x_at_last n Hn).
  rewrite E1, E2, E3, E4.
  split; [reflexivity|]. split; [reflexivity|].
  destruct (Np.Rltb 0.001 _ || Np.Rltb 0.001 _); [now right | now left].
Qed.

Lemma drawing_outline_2412 :
  exists s closing,
    let upper := combine (xu s) (yu s) in
    let lower := rev (combine (xl s) (yl s)) in
    naca_4digit_coordinates naca_2412 100 100 = inr s /\
    create_dxf_airfoil naca_2412 100 100 =
    inr ([LWPolyline upper; LWPolyline lower] ++ closing
         ++ [Text naca_2412 100 (100 * 0.05) (100 * 0.1, 100 * 0.2)]) /\
    length upper = Z.to_nat 100 /\ length lower = Z.to_nat 100 /\
    nth 0 upper (0, 0) = (0, 0) /\
    nth (Z.to_nat 100 - 1) lower (0, 0) = (0, 0) /\
    (closing = [] \/
     closing =
     [Line (nth (Z.to_nat 100 - 1) upper (0, 0)) (nth 0 lower (0, 0))]).
Proof.
  apply (drawing_outline naca_2412 100 100).
  - exists (2, 4, 12)%Z. reflexivity.
  - lia.
Defined.

(** ** The command line, continued *)

(** X15: [main] produces a drawing exactly when its test [chord <= 0]
    fails, the point count is at least 10 and the designation parses.  Its
    only failures are the chord error, the point-count error and the error
    of the parser, tested in this order; no [IndexError] can occur. *)
Theorem main_outcome (naca : PyStr.str) (chord : R) (num_points : Z) :
  (succeeds (main naca chord num_points) <->
   ~ chord <= 0 /\ (10 <= num_points)%Z /\
   succeeds (parse_naca_4digit naca)) /\
  (forall e, main naca chord num_points = inl e ->
     (chord <= 0 /\ e = InvalidChordLength) \/
     (~ chord <= 0 /\ (num_points < 10)%Z /\ e = InsufficientResolution) \/
     (~ chord <= 0 /\ (10 <= num_points)%Z /\
      parse_naca_4digit naca = inl e)).
Proof.
  unfold main.
  destruct (Np.Rleb chord 0) eqn:Ec.
  { apply Rleb_true in Ec. split.
    - split; [intros [r Hr]; discriminate | intros [H _]; contradiction].
    - intros e [= <-]. left. auto. }
  apply Rleb_false in Ec.
  assert (Nc : ~ chord <= 0) by lra.
  destruct (Z.ltb_spec num_points 10) as [Hn|Hn].
  { split.
    - split; [intros [r Hr]; discriminate | intros (_ & H & _); lia].
    - intros e [= <-]. right. left. auto. }
  split.
  - split.
    + intros S. apply create_dxf_succeeds_inv in S. tauto.
    + intros (_ & _ & S). apply create_dxf_succeeds; [exact S | lia].
  - intros e He. right. right. split; [exact Nc|]. split; [exact Hn|].
    destruct (parse_naca_4digit naca) as [e0|mpt] eqn:Hp.
    + rewrite (create_dxf_parse_error naca chord num_points e0 Hp) in He.
      congruence.
    + assert (S : succeeds (parse_naca_4digit naca)) by (exists mpt; exact Hp).
      destruct (create_dxf_succeeds naca chord num_points S ltac:(lia))
        as [r Hr].
      congruence.
Qed.

(** ** The designation parser, continued *)

Lemma parse_ascii_value (a b c d : PyStr.codepoint) :
  four_ascii_digits [a; b; c; d] ->
  parse_naca_4digit [a; b; c; d] =
  inr (Z.of_N (a - 48), Z.of_N (b - 48),
       (10 * Z.of_N (c - 48) + Z.of_N (d - 48))%Z).
Proof.
  intros [_ F].
  inversion F as [|? ? Ha F1]; subst. inversion F1 as [|? ? Hb F2]; subst.
  inversion F2 as [|? ? Hc F3]; subst. inversion F3 as [|? ? Hd _]; subst.
  rewrite parse_four. unfold forallb, PyStr.isdigit_char.
  rewrite !decimal_value_ascii_digit by assumption. reflexivity.
Qed.

Lemma encode_is_ascii (m p t : Z) :
  (0 <= m <= 9)%Z -> (0 <= p <= 9)%Z -> (0 <= t <= 99)%Z ->
  four_ascii_digits (encode_designation m p t).
Proof.
  intros Hm Hp Ht.
  pose proof (Z.div_mod t 10 ltac:(lia)) as E.
  pose proof (Z.mod_pos_bound t 10 ltac:(lia)) as B.
  assert (Hq : (0 <= t / 10 <= 9)%Z) by lia.
  split; [reflexivity|].
  unfold encode_designation, digit_char.
  repeat constructor; apply ascii_digit_bounds; lia.
Qed.

(** X16: the parser maps the strings of four ASCII digits one-to-one onto
    the triples with camber 0..9, position 0..9 and thickness 0..99: every
    parsed triple lies in these ranges, every triple in these ranges is the
    parse of a string of four ASCII digits, and two such strings with the
    same parse are equal. *)
Theorem parse_ascii_bijection :
  (forall s m p t,
     parse_naca_4digit s = inr (m, p, t) ->
     (0 <= m <= 9)%Z /\ (0 <= p <= 9)%Z /\ (0 <= t <= 99)%Z) /\
  (forall m p t,
     (0 <= m <= 9)%Z -> (0 <= p <= 9)%Z -> (0 <= t <= 99)%Z ->
     exists s, four_ascii_digits s /\ parse_naca_4digit s = inr (m, p, t)) /\
  (forall s1 s2,
     four_ascii_digits s1 -> four_ascii_digits s2 ->
     parse_naca_4digit s1 = parse_naca_4digit s2 -> s1 = s2).
Proof.
  split; [|split].
  - intros s m p t H. now apply (parse_params_range s).
  - intros m p t Hm Hp Ht. exists (encode_designation m p t).
    split; [now apply encode_is_ascii | now apply parse_encode_designation].
  - intros s1 s2 D1 D2 E.
    destruct (length_4 s1 (proj1 D1)) as (a1 & b1 & c1 & d1 & ->).
    destruct (length_4 s2 (proj1 D2)) as (a2 & b2 & c2 & d2 & ->).
    rewrite (parse_ascii_value _ _ _ _ D1), (parse_ascii_value _ _ _ _ D2) in E.
    destruct D1 as [_ F1]. destruct D2 as [_ F2].
    repeat match goal with
    | H : Forall _ (_ :: _) |- _ => inversion H; clear H; subst
    end.
    repeat match goal with
    | H : PyStr.is_ascii_digit _ = true |- _ => apply ascii_digit_bounds in H
    end.
    remember (10 * Z.of_N (c1 - 48) + Z.of_N (d1 - 48))%Z as t1 eqn:E1.
    remember (10 * Z.of_N (c2 - 48) + Z.of_N (d2 - 48))%Z as t2 eqn:E2.
    injection E as Ea Eb Et.
    assert (a1 = a2) by lia. assert (b1 = b2) by lia.
    assert (c1 = c2) by lia. assert (d1 = d2) by lia.
    congruence.
Qed.

(** X17: the parser raises only [ValueError]s, never an [IndexError]: either
    the designation error of its guard, or the error of [int] on a string of
    four characters that [str.isdigit] accepts and of which one has no
    decimal digit value. *)
Theorem parse_errors (s : PyStr.str) (e : exception) :
  parse_naca_4digit s = inl e ->
  e = InvalidDesignation \/
  (e = ValueError "invalid literal for int() with base 10" /\
   length s = 4%nat /\
   Forall (fun c => PyStr.isdigit_char c = true) s /\
   Exists (fun c => PyStr.decimal_value c = None) s).
Proof.
  intros H.
  destruct (Nat.eq_dec (length s) 4) as [L|L];
    [|rewrite (parse_wrong_length s L) in H; left; congruence].
  destruct (length_4 s L) as (a & b & c & d & ->).
  rewrite parse_four in H.
  destruct (forallb PyStr.isdigit_char [a; b; c; d]) eqn:F; cbn [negb] in H;
    [|left; congruence].
  right. apply forallb_true_Forall in F.
  destruct (PyStr.decimal_value a) eqn:Ea; [|
    split; [congruence|]; split; [exact L|]; split; [exact F|];
    now apply Exists_cons_hd].
  destruct (PyStr.decimal_value b) eqn:Eb; [|
    split; [congruence|]; split; [exact L|]; split; [exact F|];
    now apply Exists_cons_tl, Exists_cons_hd].
  destruct (PyStr.decimal_value c) eqn:Ec; [|
    split; [congruence|]; split; [exact L|]; split; [exact F|];
    now apply Exists_cons_tl, Exists_cons_tl, Exists_cons_hd].
  destruct (PyStr.decimal_value d) eqn:Ed; [discriminate|].
  split; [congruence|]. split; [exact L|]. split; [exact F|].
  now apply Exists_cons_tl, Exists_cons_tl, Exists_cons_tl, Exists_cons_hd.
Qed.

Lemma parse_errors_superscript :
  ValueError "invalid literal for int() with base 10" = InvalidDesignation \/
  (ValueError "invalid literal for int() with base 10" =
   ValueError "invalid literal for int() with base 10" /\
   length [0xB2; 0x34; 0x31; 0x32]%N = 4%nat /\
   Forall (fun c => PyStr.isdigit_char c = true) [0xB2; 0x34; 0x31; 0x32]%N /\
   Exists (fun c => PyStr.decimal_value c = None) [0xB2; 0x34; 0x31; 0x32]%N).
Proof.
  apply (parse_errors [0xB2; 0x34; 0x31; 0x32]%N). reflexivity.
Defined.

(** ** The camber slope *)

Lemma dyc_dx_at_sign (m p x : R) :
  0 <= m -> 0 <= p < 1 ->
  (x <= p -> 0 <= dyc_dx_at m p x) /\ (p < x -> dyc_dx_at m p x <= 0).
Proof.
  intros Hm Hp. unfold dyc_dx_at.
  destruct (Np.Rltb 0 m && Np.Rltb 0 p) eqn:G; [|split; intros _; lra].
  apply andb_true_iff in G. destruct G as [Gm Gp].
  apply Rltb_true in Gm, Gp.
  destruct (Np.Rltb p x) eqn:E.
  - apply Rltb_true in E. split; [lra|]. intros _. unfold slope_aft.
    assert (K : 0 < 2 * m / (1 - p) ^ 2).
    { apply Rdiv_lt_0_compat; [lra|]. nra. }
    nra.
  - apply Rltb_false in E.
    assert (E' : Np.Rleb x p = true) by now apply Rleb_true.
    rewrite E'. split; [|lra]. intros _. unfold slope_fwd.
    assert (K : 0 < 2 * m / p ^ 2).
    { apply Rdiv_lt_0_compat; [lra|]. nra. }
    nra.
Qed.

(** X18: the camber line rises up to the position of maximum camber and
    falls behind it: at every station not beyond [p/10] the slope is
    non-negative, and at every station beyond it the slope is
    non-positive. *)
Theorem camber_slope_sign (d : PyStr.str) (c : R) (n : Z) (m p t : Z) :
  parse_naca_4digit d = inr (m, p, t) -> (0 <= n)%Z ->
  exists l,
    naca_4digit_locals d c n = inr l /\
    forall i, (i < Z.to_nat n)%nat ->
      (nth i (loc_x l) 0 <= IZR p / 10 -> 0 <= nth i (loc_dyc_dx l) 0) /\
      (IZR p / 10 < nth i (loc_x l) 0 -> nth i (loc_dyc_dx l) 0 <= 0).
Proof.
  intros Hp Hn.
  destruct (stations_nonneg n Hn) as (x & Hx & Lx).
  pose proof (station_wise d c n m p t x Hp Hx) as H. cbv zeta in H.
  eexists. split; [exact H|].
  intros i Hi. cbn [loc_x loc_dyc_dx].
  rewrite (nth_map_lt _ x i 0 0) by lia.
  destruct (normalized_params d m p t Hp) as (Bm & Bp & _).
  apply dyc_dx_at_sign; lra.
Qed.

Lemma camber_slope_sign_2412 :
  exists l,
    naca_4digit_locals naca_2412 100 100 = inr l /\
    forall i, (i < Z.to_nat 100)%nat ->
      (nth i (loc_x l) 0 <= IZR 4 / 10 -> 0 <= nth i (loc_dyc_dx l) 0) /\
      (IZR 4 / 10 < nth i (loc_x l) 0 -> nth i (loc_dyc_dx l) 0 <= 0).
Proof.
  apply (camber_slope_sign naca_2412 100 100 2 4 12); [reflexivity | lia].
Defined.
